(** * Client-side synchronisation core of the Smart Planner frontend

    A shallow embedding of the TypeScript sources that implement the offline
    store ([stores/useOfflineStore]), the task hooks ([hooks/useTasks.ts]),
    the chat hooks ([hooks/useChat]), the resync hooks
    ([hooks/useRealTimeSync]) and the toggle handler of [App.tsx], followed by
    the properties the specification states about them.

    JavaScript numbers that hold integers are modelled by [Z], arrays by
    [list], optional fields by [option], string enums by inductive types. *)

From Stdlib Require Import ZArith Ascii.
From stdpp Require Import base option list gmap strings pretty.

Local Open Scope Z_scope.

(** ** types/enums.ts *)

Inductive Priority := LOW | MEDIUM | HIGH | URGENT.

Inductive TaskStatus := PENDING | IN_PROGRESS | COMPLETED.

Inductive MessageRole := USER | ASSISTANT.

#[global] Instance Priority_eq_dec : EqDecision Priority.
Proof. solve_decision. Defined.

#[global] Instance TaskStatus_eq_dec : EqDecision TaskStatus.
Proof. solve_decision. Defined.

#[global] Instance MessageRole_eq_dec : EqDecision MessageRole.
Proof. solve_decision. Defined.

(** ** types/task.ts *)

Module Task.
(** [interface Task]; the ISO date strings are kept as strings. *)
Record t := mk {
  id : Z;
  title : string;
  description : option string;
  due_date : option string;
  priority : Priority;
  category : option string;
  status : TaskStatus;
  created_at : string;
  updated_at : string;
  calendar_event_id : option string;
  ai_generated : bool
}.
End Task.

(** An optional key of an object literal whose target field may be
    [undefined]: the key is left out, present with [undefined], or present
    with a value.  A spread over an object keeps the field in the first
    case and overwrites it in the other two. *)
Inductive Field (A : Type) :=
| Absent
| Undefined
| Value (a : A).
Arguments Absent {A}.
Arguments Undefined {A}.
Arguments Value {A}.

(** [{ ...{ f: current }, ...{ f?: field } }.f] for an optional [f]. *)
Definition spreadField {A : Type} (current : option A) (field : Field A) : option A :=
  match field with
  | Absent => current
  | Undefined => None
  | Value a => Some a
  end.

Module TaskUpdate.
(** [interface TaskUpdate]: every key optional.  For [title], [priority] and
    [status], which a [Task] requires, an update gives a value or leaves the
    key out ([None]); for the fields a [Task] may lack the key can also be
    present with [undefined], as the edit form passes [description]. *)
Record t := mk {
  title : option string;
  description : Field string;
  due_date : Field string;
  priority : option Priority;
  category : Field string;
  status : option TaskStatus
}.
End TaskUpdate.

Module GeneratedTask.
(** [interface GeneratedTask]; the confidence score, a float in the source,
    is carried as the decimal text the server sent. *)
Record t := mk {
  title : string;
  description : string;
  suggested_due_date : option string;
  suggested_priority : Priority;
  suggested_category : string;
  confidence_score : string
}.
End GeneratedTask.

(** ** types/chat.ts *)

Module ChatMessage.
Record t := mk {
  id : Z;
  content : string;
  role : MessageRole;
  timestamp : string;
  generated_tasks : option (list GeneratedTask.t)
}.
End ChatMessage.

(** ** types/api.ts *)

Module PaginatedResponse.
Record t (A : Type) := mk {
  items : list A;
  total : Z;
  page : Z;
  size : Z;
  pages : Z
}.
Arguments mk {A}.
Arguments items {A}.
Arguments total {A}.
Arguments page {A}.
Arguments size {A}.
Arguments pages {A}.
End PaginatedResponse.

#[global] Instance Field_eq_dec {A : Type} `{EqDecision A} : EqDecision (Field A).
Proof. solve_decision. Defined.

#[global] Instance Task_eq_dec : EqDecision Task.t.
Proof. solve_decision. Defined.

#[global] Instance TaskUpdate_eq_dec : EqDecision TaskUpdate.t.
Proof. solve_decision. Defined.

#[global] Instance GeneratedTask_eq_dec : EqDecision GeneratedTask.t.
Proof. solve_decision. Defined.

#[global] Instance ChatMessage_eq_dec : EqDecision ChatMessage.t.
Proof. solve_decision. Defined.

#[global] Instance PaginatedResponse_eq_dec `{EqDecision A} :
  EqDecision (PaginatedResponse.t A).
Proof. solve_decision. Defined.

(** ** stores/useOfflineStore: the persisted offline store *)

Inductive OperationType := CREATE_TASK | UPDATE_TASK | DELETE_TASK | COMPLETE_TASK.

#[global] Instance OperationType_eq_dec : EqDecision OperationType.
Proof. solve_decision. Defined.

Module OfflineOperation.
(** [interface OfflineOperation].  The payload [data : any] is never
    inspected by the store; it is carried as its JSON text, which is also
    the form in which the persist middleware writes it. *)
Record t := mk {
  id : string;
  type : OperationType;
  data : string;
  timestamp : Z;
  retryCount : Z
}.
End OfflineOperation.

#[global] Instance OfflineOperation_eq_dec : EqDecision OfflineOperation.t.
Proof. solve_decision. Defined.

(** The data fields of [interface OfflineState]; the actions are the
    functions below, each of which is one [set(...)] of the zustand store. *)
Record OfflineState := mkOfflineState {
  isOnline : bool;
  pendingOperations : list OfflineOperation.t;
  cachedTasks : list Task.t;
  cachedChatMessages : list ChatMessage.t;
  lastSyncTimestamp : Z
}.

(** The initial state of the store creator; [navigator_onLine] is the value
    of [navigator.onLine] when the store is created. *)
Definition initialState (navigator_onLine : bool) : OfflineState :=
  {| isOnline := navigator_onLine;
     pendingOperations := [];
     cachedTasks := [];
     cachedChatMessages := [];
     lastSyncTimestamp := 0 |}.

Definition setOnlineStatus (online : bool) (state : OfflineState) : OfflineState :=
  {| isOnline := online;
     pendingOperations := pendingOperations state;
     cachedTasks := cachedTasks state;
     cachedChatMessages := cachedChatMessages state;
     lastSyncTimestamp := lastSyncTimestamp state |}.

Definition set_pendingOperations (ops : list OfflineOperation.t)
    (state : OfflineState) : OfflineState :=
  {| isOnline := isOnline state;
     pendingOperations := ops;
     cachedTasks := cachedTasks state;
     cachedChatMessages := cachedChatMessages state;
     lastSyncTimestamp := lastSyncTimestamp state |}.

Definition set_cachedTasks (tasks : list Task.t) (state : OfflineState) : OfflineState :=
  {| isOnline := isOnline state;
     pendingOperations := pendingOperations state;
     cachedTasks := tasks;
     cachedChatMessages := cachedChatMessages state;
     lastSyncTimestamp := lastSyncTimestamp state |}.

Definition set_cachedChatMessages (messages : list ChatMessage.t)
    (state : OfflineState) : OfflineState :=
  {| isOnline := isOnline state;
     pendingOperations := pendingOperations state;
     cachedTasks := cachedTasks state;
     cachedChatMessages := messages;
     lastSyncTimestamp := lastSyncTimestamp state |}.

(** What the environment supplies to one [addPendingOperation]: the two
    readings of [Date.now()] and the text of
    [Math.random().toString(36).substr(2, 9)]. *)
Record IdSource := mkIdSource {
  now_for_id : Z;
  random_suffix : string;
  now_for_timestamp : Z
}.

(** [addPendingOperation]: the operation is appended after the existing
    ones, with an id built from the clock and a random suffix, and with
    [retryCount: 0]. *)
Definition addPendingOperation (type : OperationType) (data : string)
    (env : IdSource) (state : OfflineState) : OfflineState :=
  set_pendingOperations
    (pendingOperations state ++
       [ {| OfflineOperation.id := pretty (now_for_id env) +:+ random_suffix env;
            OfflineOperation.type := type;
            OfflineOperation.data := data;
            OfflineOperation.timestamp := now_for_timestamp env;
            OfflineOperation.retryCount := 0 |} ])
    state.

Definition removePendingOperation (id : string) (state : OfflineState) : OfflineState :=
  set_pendingOperations
    (filter (λ op, OfflineOperation.id op ≠ id) (pendingOperations state))
    state.

Definition bumpRetry (op : OfflineOperation.t) : OfflineOperation.t :=
  {| OfflineOperation.id := OfflineOperation.id op;
     OfflineOperation.type := OfflineOperation.type op;
     OfflineOperation.data := OfflineOperation.data op;
     OfflineOperation.timestamp := OfflineOperation.timestamp op;
     OfflineOperation.retryCount := OfflineOperation.retryCount op + 1 |}.

Definition incrementRetryCount (id : string) (state : OfflineState) : OfflineState :=
  set_pendingOperations
    ((λ op, if decide (OfflineOperation.id op = id) then bumpRetry op else op)
       <$> pendingOperations state)
    state.

Definition clearPendingOperations (state : OfflineState) : OfflineState :=
  set_pendingOperations [] state.

Definition setCachedTasks (tasks : list Task.t) (state : OfflineState) : OfflineState :=
  set_cachedTasks tasks state.

Definition addCachedTask (task : Task.t) (state : OfflineState) : OfflineState :=
  set_cachedTasks (cachedTasks state ++ [task]) state.

Module PartialTask.
(** [Partial<Task>], the argument of [updateCachedTask]; the keys of the
    fields a [Task] may lack can be present with [undefined]. *)
Record t := mk {
  id : option Z;
  title : option string;
  description : Field string;
  due_date : Field string;
  priority : option Priority;
  category : Field string;
  status : option TaskStatus;
  created_at : option string;
  updated_at : option string;
  calendar_event_id : Field string;
  ai_generated : option bool
}.
End PartialTask.

(** The object spread [{ ...task, ...updates }] for [updates : Partial<Task>]. *)
Definition spreadPartial (task : Task.t) (updates : PartialTask.t) : Task.t :=
  {| Task.id := default (Task.id task) (PartialTask.id updates);
     Task.title := default (Task.title task) (PartialTask.title updates);
     Task.description :=
       spreadField (Task.description task) (PartialTask.description updates);
     Task.due_date :=
       spreadField (Task.due_date task) (PartialTask.due_date updates);
     Task.priority := default (Task.priority task) (PartialTask.priority updates);
     Task.category :=
       spreadField (Task.category task) (PartialTask.category updates);
     Task.status := default (Task.status task) (PartialTask.status updates);
     Task.created_at := default (Task.created_at task) (PartialTask.created_at updates);
     Task.updated_at := default (Task.updated_at task) (PartialTask.updated_at updates);
     Task.calendar_event_id :=
       spreadField (Task.calendar_event_id task)
         (PartialTask.calendar_event_id updates);
     Task.ai_generated :=
       default (Task.ai_generated task) (PartialTask.ai_generated updates) |}.

Definition updateCachedTask (id : Z) (updates : PartialTask.t)
    (state : OfflineState) : OfflineState :=
  set_cachedTasks
    ((λ task, if decide (Task.id task = id) then spreadPartial task updates else task)
       <$> cachedTasks state)
    state.

Definition removeCachedTask (id : Z) (state : OfflineState) : OfflineState :=
  set_cachedTasks (filter (λ task, Task.id task ≠ id) (cachedTasks state)) state.

Definition setCachedChatMessages (messages : list ChatMessage.t)
    (state : OfflineState) : OfflineState :=
  set_cachedChatMessages messages state.

Definition addCachedChatMessage (message : ChatMessage.t)
    (state : OfflineState) : OfflineState :=
  set_cachedChatMessages (message :: cachedChatMessages state) state.

Definition setLastSyncTimestamp (timestamp : Z) (state : OfflineState) : OfflineState :=
  {| isOnline := isOnline state;
     pendingOperations := pendingOperations state;
     cachedTasks := cachedTasks state;
     cachedChatMessages := cachedChatMessages state;
     lastSyncTimestamp := timestamp |}.

(** The twelve actions of the store, as data: every write to the store made
    anywhere in the sources is one of them. *)
Inductive StoreAction :=
| ActSetOnlineStatus (online : bool)
| ActAddPendingOperation (type : OperationType) (data : string) (env : IdSource)
| ActRemovePendingOperation (id : string)
| ActIncrementRetryCount (id : string)
| ActClearPendingOperations
| ActSetCachedTasks (tasks : list Task.t)
| ActAddCachedTask (task : Task.t)
| ActUpdateCachedTask (id : Z) (updates : PartialTask.t)
| ActRemoveCachedTask (id : Z)
| ActSetCachedChatMessages (messages : list ChatMessage.t)
| ActAddCachedChatMessage (message : ChatMessage.t)
| ActSetLastSyncTimestamp (timestamp : Z).

Definition runAction (a : StoreAction) (state : OfflineState) : OfflineState :=
  match a with
  | ActSetOnlineStatus online => setOnlineStatus online state
  | ActAddPendingOperation type data env => addPendingOperation type data env state
  | ActRemovePendingOperation id => removePendingOperation id state
  | ActIncrementRetryCount id => incrementRetryCount id state
  | ActClearPendingOperations => clearPendingOperations state
  | ActSetCachedTasks tasks => setCachedTasks tasks state
  | ActAddCachedTask task => addCachedTask task state
  | ActUpdateCachedTask id updates => updateCachedTask id updates state
  | ActRemoveCachedTask id => removeCachedTask id state
  | ActSetCachedChatMessages messages => setCachedChatMessages messages state
  | ActAddCachedChatMessage message => addCachedChatMessage message state
  | ActSetLastSyncTimestamp timestamp => setLastSyncTimestamp timestamp state
  end.

(** *** The persist middleware

    The stored blob is a JSON object; it is modelled by the list of its keys
    with their values. *)
Inductive StoredValue :=
| SBool (b : bool)
| SNumber (n : Z)
| SOperations (ops : list OfflineOperation.t)
| STasks (tasks : list Task.t)
| SMessages (messages : list ChatMessage.t).

Definition persist_name : string := "ollama-todo-offline-state".

(** [partialize]: "Persist everything except online status". *)
Definition partialize (state : OfflineState) : list (string * StoredValue) :=
  [ ("pendingOperations", SOperations (pendingOperations state));
    ("cachedTasks", STasks (cachedTasks state));
    ("cachedChatMessages", SMessages (cachedChatMessages state));
    ("lastSyncTimestamp", SNumber (lastSyncTimestamp state)) ].

(** One key of the stored object written over the current state, as the
    middleware's default merge [{ ...currentState, ...persistedState }] does;
    keys the state does not declare are left out of the typed state. *)
Definition assignStored (state : OfflineState) (kv : string * StoredValue) : OfflineState :=
  match kv with
  | (key, SBool b) =>
      if decide (key = "isOnline") then setOnlineStatus b state else state
  | (key, SOperations ops) =>
      if decide (key = "pendingOperations") then set_pendingOperations ops state
      else state
  | (key, STasks tasks) =>
      if decide (key = "cachedTasks") then set_cachedTasks tasks state else state
  | (key, SMessages messages) =>
      if decide (key = "cachedChatMessages") then set_cachedChatMessages messages state
      else state
  | (key, SNumber n) =>
      if decide (key = "lastSyncTimestamp") then setLastSyncTimestamp n state
      else state
  end.

Definition mergePersisted (persisted : list (string * StoredValue))
    (current : OfflineState) : OfflineState :=
  foldl assignStored current persisted.

(** Creation of the store on page load: the creator runs first (reading
    [navigator.onLine]), then the blob found in storage, if any, is merged
    over it. *)
Definition rehydrate (navigator_onLine : bool)
    (stored : option (list (string * StoredValue))) : OfflineState :=
  match stored with
  | None => initialState navigator_onLine
  | Some persisted => mergePersisted persisted (initialState navigator_onLine)
  end.

(** *** useOfflineOperations

    The hook destructures [isOnline] and [pendingOperations] from the store
    when the component renders; its two functions close over these values
    ([render]) and act on the store as it is when they run ([state]). *)

Definition queueOperation (render : OfflineState) (type : OperationType)
    (data : string) (env : IdSource) (state : OfflineState) : bool * OfflineState :=
  if negb (isOnline render) then (true, addPendingOperation type data env state)
  else (false, state).

(** [processOperation] as the source has it: the API calls are commented
    out, so every known operation type resolves. *)
Definition processOperation (operation : OfflineOperation.t) : bool :=
  match OfflineOperation.type operation with
  | CREATE_TASK => true
  | UPDATE_TASK => true
  | DELETE_TASK => true
  | COMPLETE_TASK => true
  end.

(** One dispatch made by the drain loop, recorded with the queue held by the
    store at the moment [processOperation] is called. *)
Record Dispatch := mkDispatch {
  dispatched : OfflineOperation.t;
  resolved : bool;
  queue_at_dispatch : list OfflineOperation.t
}.

Section Drain.
(** The dispatcher awaited by the loop: [true] when the promise resolves,
    [false] when it rejects.  [processOperation] above is one instance; the
    API calls it is meant to make are another. *)
Variable process : OfflineOperation.t → bool.

(** The body of the [for ... of] loop: [try { await ...; remove } catch
    { if (operation.retryCount >= 3) remove else increment }].  The retry
    count tested is the one of the iterated element. *)
Definition drainStep (state : OfflineState) (operation : OfflineOperation.t)
    : OfflineState :=
  if process operation then
    removePendingOperation (OfflineOperation.id operation) state
  else if decide (3 ≤ OfflineOperation.retryCount operation) then
    removePendingOperation (OfflineOperation.id operation) state
  else
    incrementRetryCount (OfflineOperation.id operation) state.

(** The loop over the array captured at render, with the log of its
    dispatches. *)
Fixpoint drainLoop (operations : list OfflineOperation.t) (state : OfflineState)
    : list Dispatch * OfflineState :=
  match operations with
  | [] => ([], state)
  | operation :: rest =>
      let d := {| dispatched := operation;
                  resolved := process operation;
                  queue_at_dispatch := pendingOperations state |} in
      let '(log, final) := drainLoop rest (drainStep state operation) in
      (d :: log, final)
  end.

Definition processPendingOperations (render : OfflineState) (state : OfflineState)
    : list Dispatch * OfflineState :=
  if negb (isOnline render) || bool_decide (length (pendingOperations render) = 0%nat)
  then ([], state)
  else drainLoop (pendingOperations render) state.

(** A drain called from a component that has rendered with the current
    store contents. *)
Definition drain (state : OfflineState) : OfflineState :=
  (processPendingOperations state state).2.

(** *** useOnlineStatus: the handlers of the window's online and offline
    events. *)
Definition handleOnline (render : OfflineState) (state : OfflineState)
    : list Dispatch * OfflineState :=
  processPendingOperations render (setOnlineStatus true state).

Definition handleOffline (state : OfflineState) : OfflineState :=
  setOnlineStatus false state.
End Drain.

(** ** The query cache of @tanstack/react-query

    The hooks talk to the library's [QueryClient].  The part of it they use
    is modelled here: a cache from query keys to queries, each with its data,
    the time the data was written and the invalidation flag. *)

(** An element of a query key array; an object element (the
    [{ filters, page, size }] of a list key) is represented by the stable
    hash the library computes for it. *)
Inductive KeyPart :=
| KStr (s : string)
| KNum (n : Z)
| KObj (hash : string).

#[global] Instance KeyPart_eq_dec : EqDecision KeyPart.
Proof. solve_decision. Defined.

#[global] Instance KeyPart_countable : Countable KeyPart.
Proof.
  refine (inj_countable'
    (λ k, match k with
          | KStr s => inl s
          | KNum n => inr (inl n)
          | KObj h => inr (inr h)
          end)
    (λ x, match x with
          | inl s => KStr s
          | inr (inl n) => KNum n
          | inr (inr h) => KObj h
          end) _).
  by intros [].
Defined.

Abbreviation QueryKey := (list KeyPart).

(** What a query holds; the type argument of [getQueryData<T>] selects the
    shape the caller expects at a key. *)
Inductive QueryData :=
| DTask (task : Task.t)
| DTaskPage (page : PaginatedResponse.t Task.t)
| DChatPage (page : PaginatedResponse.t ChatMessage.t).

#[global] Instance QueryData_eq_dec : EqDecision QueryData.
Proof. solve_decision. Defined.

Record Query := mkQuery {
  data : option QueryData;
  dataUpdatedAt : Z;
  isInvalidated : bool
}.

#[global] Instance Query_eq_dec : EqDecision Query.
Proof. solve_decision. Defined.

Abbreviation QueryCache := (gmap QueryKey Query).

(** An element of the key of a filter.  The filters the hooks modelled here
    pass to the library ([taskQueryKeys.all], [lists()], [details()],
    [detail(id)], [chatQueryKeys.all], [messages()]) hold strings and
    numbers only; a filter with an object element, which the library matches
    against part of the object of a key, is outside this type. *)
Inductive FilterPart :=
| FStr (s : string)
| FNum (n : Z).

Abbreviation FilterKey := (list FilterPart).

Definition keyPartOf (part : FilterPart) : KeyPart :=
  match part with
  | FStr s => KStr s
  | FNum n => KNum n
  end.

(** The same array, as the key of a query. *)
Definition queryKeyOf (filterKey : FilterKey) : QueryKey := keyPartOf <$> filterKey.

(** [partialMatchKey(key, filterKey)] for such a filter: every element of
    the filter is at the same position of the key and, being a string or a
    number, is identical to it. *)
Definition matchQuery (filterKey : FilterKey) (key : QueryKey) : bool :=
  bool_decide (queryKeyOf filterKey `prefix_of` key).

Definition getQueryData (queryKey : QueryKey) (cache : QueryCache) : option QueryData :=
  cache !! queryKey ≫= data.

(** [Query.setData]: the data is replaced, stamped with [Date.now()], and
    the invalidation flag is cleared. *)
Definition setData (d : QueryData) (now : Z) : Query :=
  {| data := Some d; dataUpdatedAt := now; isInvalidated := false |}.

(** [setQueryData(queryKey, updater)]: the updater is applied to the current
    data; an [undefined] result leaves the cache as it is, any other result
    is written (building the query when the key is new). *)
Definition setQueryData (queryKey : QueryKey)
    (updater : option QueryData → option QueryData) (now : Z)
    (cache : QueryCache) : QueryCache :=
  match updater (getQueryData queryKey cache) with
  | None => cache
  | Some d => <[queryKey := setData d now]> cache
  end.

(** [setQueriesData({ queryKey }, updater)]: [setQueryData] on every query
    of the cache that matches; [now] gives the clock reading for each. *)
Definition setQueriesData (filterKey : FilterKey)
    (updater : QueryKey → option QueryData → option QueryData)
    (now : QueryKey → Z) (cache : QueryCache) : QueryCache :=
  map_imap
    (λ key query,
       if matchQuery filterKey key then
         match updater key (data query) with
         | None => Some query
         | Some d => Some (setData d (now key))
         end
       else Some query)
    cache.

Definition invalidate (query : Query) : Query :=
  {| data := data query; dataUpdatedAt := dataUpdatedAt query; isInvalidated := true |}.

(** [invalidateQueries({ queryKey })]: the matching queries are flagged; the
    refetch the library then starts for mounted queries completes in a later
    task and is not part of the call. *)
Definition invalidateQueries (filterKey : FilterKey) (cache : QueryCache) : QueryCache :=
  map_imap
    (λ key query,
       Some (if matchQuery filterKey key then invalidate query else query))
    cache.

Definition removeQueries (filterKey : FilterKey) (cache : QueryCache) : QueryCache :=
  filter (λ kq, matchQuery filterKey kq.1 = false) cache.

(** Whether a query is stale for an observer with the given [staleTime]:
    invalidated, without data, or written [staleTime] or more ago. *)
Definition isStale (query : Query) (staleTime now : Z) : bool :=
  isInvalidated query
  || bool_decide (data query = None)
  || bool_decide (Z.max (dataUpdatedAt query + staleTime - now) 0 = 0).

Record UseQueryOptions := mkUseQueryOptions {
  queryKey : QueryKey;
  staleTime : Z;
  gcTime : option Z;
  enabled : bool
}.

(** What a [useQuery] that mounts (or mounts again) at time [now] gets. *)
Inductive QueryRead :=
| ServeCached (d : QueryData)
| ServeStaleAndFetch (d : QueryData)
| FetchOnly
| Idle (d : option QueryData).

Definition useQuery (options : UseQueryOptions) (now : Z) (cache : QueryCache)
    : QueryRead :=
  if negb (enabled options) then Idle (getQueryData (queryKey options) cache)
  else
    match cache !! queryKey options with
    | None => FetchOnly
    | Some query =>
        match data query with
        | None => FetchOnly
        | Some d =>
            if isStale query (staleTime options) now then ServeStaleAndFetch d
            else ServeCached d
        end
    end.

(** The query function resolved with [d] at time [now]. *)
Definition fetchResolved (queryKey : QueryKey) (d : QueryData) (now : Z)
    (cache : QueryCache) : QueryCache :=
  <[queryKey := setData d now]> cache.

(** ** hooks/useTasks.ts *)

Definition taskQueryKeys_all : FilterKey := [FStr "tasks"].
Definition taskQueryKeys_lists : FilterKey := taskQueryKeys_all ++ [FStr "list"].
Definition taskQueryKeys_list (params : string) : QueryKey :=
  queryKeyOf taskQueryKeys_lists ++ [KObj params].
Definition taskQueryKeys_details : FilterKey := taskQueryKeys_all ++ [FStr "detail"].
(** [taskQueryKeys.detail(id)], as the filter given to [invalidateQueries]
    and [removeQueries] and as the key given to [getQueryData] and
    [setQueryData]. *)
Definition taskQueryKeys_detail_filter (id : Z) : FilterKey :=
  taskQueryKeys_details ++ [FNum id].
Definition taskQueryKeys_detail (id : Z) : QueryKey :=
  queryKeyOf (taskQueryKeys_detail_filter id).
Definition taskQueryKeys_analysis : FilterKey := taskQueryKeys_all ++ [FStr "analysis"].

Definition useTasks (params : string) : UseQueryOptions :=
  {| queryKey := taskQueryKeys_list params;
     staleTime := 5 * 60 * 1000;
     gcTime := Some (10 * 60 * 1000);
     enabled := true |}.

Definition useTask (id : Z) : UseQueryOptions :=
  {| queryKey := taskQueryKeys_detail id;
     staleTime := 5 * 60 * 1000;
     gcTime := None;
     enabled := negb (bool_decide (id = 0)) |}.

(** The clock as one synchronous block of a hook reads it: [Date.now()]
    inside the library for the query written at a key, and
    [new Date().toISOString()] in the hook, once for the detail entry and
    once for each item of each list it rewrites. *)
Record Clock := mkClock {
  Date_now : QueryKey → Z;
  iso_detail : string;
  iso_item : QueryKey → nat → string
}.

(** [{ ...task, ...updates, updated_at }] for [updates : TaskUpdate]: a key
    of [updates] that is left out keeps the field of [task], and a key
    present with [undefined] erases it. *)
Definition spreadUpdate (task : Task.t) (updates : TaskUpdate.t)
    (updated_at : string) : Task.t :=
  {| Task.id := Task.id task;
     Task.title := default (Task.title task) (TaskUpdate.title updates);
     Task.description :=
       spreadField (Task.description task) (TaskUpdate.description updates);
     Task.due_date :=
       spreadField (Task.due_date task) (TaskUpdate.due_date updates);
     Task.priority := default (Task.priority task) (TaskUpdate.priority updates);
     Task.category :=
       spreadField (Task.category task) (TaskUpdate.category updates);
     Task.status := default (Task.status task) (TaskUpdate.status updates);
     Task.created_at := Task.created_at task;
     Task.updated_at := updated_at;
     Task.calendar_event_id := Task.calendar_event_id task;
     Task.ai_generated := Task.ai_generated task |}.

(** [{ ...previousTask, status: 'COMPLETED', updated_at }]. *)
Definition markCompleted (task : Task.t) (updated_at : string) : Task.t :=
  {| Task.id := Task.id task;
     Task.title := Task.title task;
     Task.description := Task.description task;
     Task.due_date := Task.due_date task;
     Task.priority := Task.priority task;
     Task.category := Task.category task;
     Task.status := COMPLETED;
     Task.created_at := Task.created_at task;
     Task.updated_at := updated_at;
     Task.calendar_event_id := Task.calendar_event_id task;
     Task.ai_generated := Task.ai_generated task |}.

(** [{ ...old, items }] and [{ ...old, items, total }]. *)
Definition withItems {A : Type} (old : PaginatedResponse.t A) (items : list A)
    : PaginatedResponse.t A :=
  {| PaginatedResponse.items := items;
     PaginatedResponse.total := PaginatedResponse.total old;
     PaginatedResponse.page := PaginatedResponse.page old;
     PaginatedResponse.size := PaginatedResponse.size old;
     PaginatedResponse.pages := PaginatedResponse.pages old |}.

Definition withItemsTotal {A : Type} (old : PaginatedResponse.t A) (items : list A)
    (total : Z) : PaginatedResponse.t A :=
  {| PaginatedResponse.items := items;
     PaginatedResponse.total := total;
     PaginatedResponse.page := PaginatedResponse.page old;
     PaginatedResponse.size := PaginatedResponse.size old;
     PaginatedResponse.pages := PaginatedResponse.pages old |}.

(** The updater passed to [setQueriesData<PaginatedResponse<Task>>]: a
    missing page is returned as it is, the items of a page are rewritten by
    [f], which also gets the position of the item. *)
Definition onTaskPage (f : nat → Task.t → Task.t) (old : option QueryData)
    : option QueryData :=
  match old with
  | Some (DTaskPage page) =>
      Some (DTaskPage (withItems page (imap f (PaginatedResponse.items page))))
  | other => other
  end.

(** [getQueryData<Task>(queryKey)]. *)
Definition getTask (queryKey : QueryKey) (cache : QueryCache) : option Task.t :=
  match getQueryData queryKey cache with
  | Some (DTask task) => Some task
  | _ => None
  end.

(** *** useUpdateTask *)

Definition useUpdateTask_optimistic (clock : Clock) (id : Z) (updates : TaskUpdate.t)
    (cache : QueryCache) : QueryCache :=
  let queryKey := taskQueryKeys_detail id in
  let previousTask := getTask queryKey cache in
  let cache1 :=
    match previousTask with
    | Some previousTask =>
        setQueryData queryKey
          (λ _, Some (DTask (spreadUpdate previousTask updates (iso_detail clock))))
          (Date_now clock queryKey) cache
    | None => cache
    end in
  setQueriesData taskQueryKeys_lists
    (λ key, onTaskPage (λ i task,
       if decide (Task.id task = id)
       then spreadUpdate task updates (iso_item clock key i)
       else task))
    (Date_now clock) cache1.

Definition useUpdateTask_rollback (id : Z) (cache : QueryCache) : QueryCache :=
  invalidateQueries taskQueryKeys_lists
    (invalidateQueries (taskQueryKeys_detail_filter id) cache).

(** The [onSuccess] shared, up to the name of its argument, by
    [useUpdateTask], [useCompleteTask] and [useImproveTask]. *)
Definition writeServerTask (clock : Clock) (serverTask : Task.t)
    (cache : QueryCache) : QueryCache :=
  let key := taskQueryKeys_detail (Task.id serverTask) in
  setQueriesData taskQueryKeys_lists
    (λ _, onTaskPage (λ _ task,
       if decide (Task.id task = Task.id serverTask) then serverTask else task))
    (Date_now clock)
    (setQueryData key (λ _, Some (DTask serverTask)) (Date_now clock key) cache).

Definition useUpdateTask_onSuccess := writeServerTask.

(** *** useDeleteTask *)

Definition useDeleteTask_optimistic (clock : Clock) (id : Z) (cache : QueryCache)
    : QueryCache :=
  removeQueries (taskQueryKeys_detail_filter id)
    (setQueriesData taskQueryKeys_lists
       (λ _ old,
          match old with
          | Some (DTaskPage page) =>
              Some (DTaskPage
                (withItemsTotal page
                   (filter (λ task, Task.id task ≠ id) (PaginatedResponse.items page))
                   (PaginatedResponse.total page - 1)))
          | other => other
          end)
       (Date_now clock) cache).

Definition useDeleteTask_rollback (cache : QueryCache) : QueryCache :=
  invalidateQueries taskQueryKeys_lists cache.

(** *** useCompleteTask *)

Definition useCompleteTask_optimistic (clock : Clock) (id : Z) (cache : QueryCache)
    : QueryCache :=
  let queryKey := taskQueryKeys_detail id in
  match getTask queryKey cache with
  | Some previousTask =>
      let completedTask := markCompleted previousTask (iso_detail clock) in
      setQueriesData taskQueryKeys_lists
        (λ _, onTaskPage (λ _ task,
           if decide (Task.id task = id) then completedTask else task))
        (Date_now clock)
        (setQueryData queryKey (λ _, Some (DTask completedTask))
           (Date_now clock queryKey) cache)
  | None => cache
  end.

Definition useCompleteTask_rollback (id : Z) (cache : QueryCache) : QueryCache :=
  invalidateQueries taskQueryKeys_lists
    (invalidateQueries (taskQueryKeys_detail_filter id) cache).

Definition useCompleteTask_onSuccess := writeServerTask.

Definition useImproveTask_onSuccess := writeServerTask.

(** *** useCreateTask *)

Definition useCreateTask_onSuccess (clock : Clock) (newTask : Task.t)
    (cache : QueryCache) : QueryCache :=
  let key := taskQueryKeys_detail (Task.id newTask) in
  setQueryData key (λ _, Some (DTask newTask)) (Date_now clock key)
    (invalidateQueries taskQueryKeys_lists cache).

(** *** The mutation wrappers of lib/api *)

(** The outcome of an API call once [withRetry] has given up retrying or has
    got a response. *)
Inductive ApiResult (A : Type) :=
| Resolved (value : A)
| Rejected (error : string).
Arguments Resolved {A}.
Arguments Rejected {A}.

(** Modelled from the spec: [withOptimisticUpdate] of lib/api, which is not
    among the sources.  Section 4.2 gives its algorithm: apply the
    optimistic change, issue the request, return the response on success,
    and on failure run the rollback function and surface the error. *)
Definition withOptimisticUpdate {A : Type} (optimistic rollback : QueryCache → QueryCache)
    (apiCall : ApiResult A) (cache : QueryCache) : QueryCache * ApiResult A :=
  let cache1 := optimistic cache in
  match apiCall with
  | Resolved value => (cache1, Resolved value)
  | Rejected error => (rollback cache1, Rejected error)
  end.

(** [useMutation({ mutationFn, onSuccess, onError })] run once: [onSuccess]
    gets the resolved value; [onError] only logs. *)
Definition useMutation {A : Type} (mutationFn : QueryCache → QueryCache * ApiResult A)
    (onSuccess : A → QueryCache → QueryCache) (cache : QueryCache)
    : QueryCache * ApiResult A :=
  match mutationFn cache with
  | (cache1, Resolved value) => (onSuccess value cache1, Resolved value)
  | (cache1, Rejected error) => (cache1, Rejected error)
  end.

(** The three optimistic mutations; [clock] is read by the optimistic step,
    [clock'] by [onSuccess], and [response] is what the server answers. *)
Definition useUpdateTask (clock clock' : Clock) (id : Z) (updates : TaskUpdate.t)
    (response : ApiResult Task.t) : QueryCache → QueryCache * ApiResult Task.t :=
  useMutation
    (withOptimisticUpdate (useUpdateTask_optimistic clock id updates)
       (useUpdateTask_rollback id) response)
    (useUpdateTask_onSuccess clock').

Definition useDeleteTask (clock : Clock) (id : Z) (response : ApiResult unit)
    : QueryCache → QueryCache * ApiResult unit :=
  useMutation
    (withOptimisticUpdate (useDeleteTask_optimistic clock id)
       useDeleteTask_rollback response)
    (λ _ cache, cache).

Definition useCompleteTask (clock clock' : Clock) (id : Z)
    (response : ApiResult Task.t) : QueryCache → QueryCache * ApiResult Task.t :=
  useMutation
    (withOptimisticUpdate (useCompleteTask_optimistic clock id)
       (useCompleteTask_rollback id) response)
    (useCompleteTask_onSuccess clock').

Definition useCreateTask (clock' : Clock) (response : ApiResult Task.t)
    : QueryCache → QueryCache * ApiResult Task.t :=
  useMutation (λ cache, (cache, response)) (useCreateTask_onSuccess clock').

Definition useImproveTask (clock' : Clock) (response : ApiResult Task.t)
    : QueryCache → QueryCache * ApiResult Task.t :=
  useMutation (λ cache, (cache, response)) (useImproveTask_onSuccess clock').

(** ** hooks/useChat *)

Definition chatQueryKeys_all : FilterKey := [FStr "chat"].
Definition chatQueryKeys_messages : FilterKey := chatQueryKeys_all ++ [FStr "messages"].
Definition chatQueryKeys_messagesList (params : string) : QueryKey :=
  queryKeyOf chatQueryKeys_messages ++ [KObj params].

Definition useChatMessages (params : string) : UseQueryOptions :=
  {| queryKey := chatQueryKeys_messagesList params;
     staleTime := 2 * 60 * 1000;
     gcTime := Some (10 * 60 * 1000);
     enabled := true |}.

(** ** hooks/useRealTimeSync *)

Module SyncConfig.
(** [interface SyncConfig]; [onError] records whether the caller passed a
    handler. *)
Record t := mk {
  enabled : bool;
  interval : Z;
  onError : bool
}.
End SyncConfig.

Definition defaultSyncConfig : SyncConfig.t :=
  {| SyncConfig.enabled := true; SyncConfig.interval := 30000;
     SyncConfig.onError := false |}.

(** What [syncData] does besides writing to the store and the cache. *)
Inductive SyncEffect :=
| ConsoleError (label error : string)
| CallOnError (error : string)
| NotifyWarning (title message actionLabel : string).

(** What the refetch started by an awaited [invalidateQueries] does to one
    matching query before the call settles: no refetch when no enabled
    observer is mounted on the query, else the fetch resolves with data at a
    clock reading or is rejected. *)
Inductive Refetch :=
| NotRefetched
| RefetchResolved (d : QueryData) (now : Z)
| RefetchRejected.

(** A matching query is flagged; a refetch that resolves then writes its
    data with [Query.setData], which clears the flag, and one that is
    rejected leaves the data and the flag. *)
Definition settleRefetch (outcome : Refetch) (query : Query) : Query :=
  match outcome with
  | RefetchResolved d now => setData d now
  | NotRefetched | RefetchRejected => invalidate query
  end.

(** [await invalidateQueries({ queryKey })]: the cache when the awaited call
    settles, [refetch] giving the outcome of the refetch of each query. *)
Definition invalidateQueriesAwaited (filterKey : FilterKey)
    (refetch : QueryKey → Refetch) (cache : QueryCache) : QueryCache :=
  map_imap
    (λ key query,
       Some (if matchQuery filterKey key then settleRefetch (refetch key) query
             else query))
    cache.

(** [syncData]: [render] is the store as the hook saw it when it rendered,
    [refetch] the outcome of the refetch of each list query, [awaited] the
    outcome of the awaited [Promise.all], [now] the reading of [Date.now()]
    on the success path.  With the options of the call the library catches
    the rejection of a refetch, so a rejected refetch goes with [awaited]
    resolved; the [catch] block is what the code does should the awaited
    promise be rejected all the same. *)
Definition syncData (render : OfflineState) (config : SyncConfig.t)
    (refetch : QueryKey → Refetch) (awaited : ApiResult unit) (now : Z)
    (state : OfflineState) (cache : QueryCache)
    : OfflineState * QueryCache * list SyncEffect :=
  if negb (isOnline render) || negb (SyncConfig.enabled config) then
    (state, cache, [])
  else
    let cache1 := invalidateQueriesAwaited taskQueryKeys_lists refetch cache in
    match awaited with
    | Resolved _ => (setLastSyncTimestamp now state, cache1, [])
    | Rejected error =>
        (state, cache1,
         [ ConsoleError "Sync failed:" error;
           if SyncConfig.onError config then CallOnError error
           else NotifyWarning "Sync Failed"
                  "Unable to sync data. Your changes are saved locally." "Retry" ])
    end.

(** [applyOptimisticUpdate] of [useOptimisticSync]: the result is the cache
    after the update together with the [rollback] closure of the returned
    handle, which reads the clock again when it writes. *)
Definition applyOptimisticUpdate (queryKey : QueryKey)
    (updater : option QueryData → QueryData)
    (rollback : option (QueryCache → QueryCache)) (now : Z) (cache : QueryCache)
    : QueryCache * (Z → QueryCache → QueryCache) :=
  let previousData := getQueryData queryKey cache in
  (setQueryData queryKey (λ old, Some (updater old)) now cache,
   λ now' cache',
     match rollback with
     | Some rollback => rollback cache'
     | None => setQueryData queryKey (λ _, previousData) now' cache'
     end).

(** ** App.tsx *)

(** [task.status === TaskStatus.COMPLETED ? TaskStatus.PENDING :
    TaskStatus.COMPLETED]. *)
Definition toggledStatus (status : TaskStatus) : TaskStatus :=
  if decide (status = COMPLETED) then PENDING else COMPLETED.

(** [handleToggleComplete]: the updater given to [setTasks]; [iso i] is the
    text of [new Date().toISOString()] read for the item at position [i]. *)
Definition handleToggleComplete (iso : nat → string) (id : Z) (prev : list Task.t)
    : list Task.t :=
  imap
    (λ i task,
       if decide (Task.id task = id) then
         {| Task.id := Task.id task;
            Task.title := Task.title task;
            Task.description := Task.description task;
            Task.due_date := Task.due_date task;
            Task.priority := Task.priority task;
            Task.category := Task.category task;
            Task.status := toggledStatus (Task.status task);
            Task.created_at := Task.created_at task;
            Task.updated_at := iso i;
            Task.calendar_event_id := Task.calendar_event_id task;
            Task.ai_generated := Task.ai_generated task |}
       else task)
    prev.

(** [handleUpdateTask] and [handleDeleteTask], the other two writers of the
    task list of [App.tsx]. *)
Definition handleUpdateTask (iso : nat → string) (id : Z) (updates : TaskUpdate.t)
    (prev : list Task.t) : list Task.t :=
  imap
    (λ i task,
       if decide (Task.id task = id) then spreadUpdate task updates (iso i) else task)
    prev.

Definition handleDeleteTask (id : Z) (prev : list Task.t) : list Task.t :=
  filter (λ task, Task.id task ≠ id) prev.

(** The values of the [TaskStatus] enum. *)
Definition taskStatusValues : list TaskStatus := [PENDING; IN_PROGRESS; COMPLETED].

(** ** Auxiliary notions used to state the properties *)

(** The ids queued in the store, in queue order. *)
Definition queuedIds (state : OfflineState) : list string :=
  OfflineOperation.id <$> pendingOperations state.

(** Successive drains, each from a component that has rendered with the
    store as the previous drain left it; the dispatcher of each drain is
    given separately, as the outcome of a request may change between drains. *)
Definition drains (processes : list (OfflineOperation.t → bool))
    (state : OfflineState) : OfflineState :=
  foldl (λ s process, drain process s) state processes.

(** What a single drain does to one queued operation. *)
Definition afterDrain (process : OfflineOperation.t → bool)
    (operation : OfflineOperation.t) : option OfflineOperation.t :=
  if process operation then None
  else if decide (3 ≤ OfflineOperation.retryCount operation) then None
  else Some (bumpRetry operation).

(** ** Sample values *)

Definition sampleOperation : OfflineOperation.t :=
  {| OfflineOperation.id := "1700000000000k3j2h1g0f";
     OfflineOperation.type := UPDATE_TASK;
     OfflineOperation.data := "{id:7,updates:{status:COMPLETED}}";
     OfflineOperation.timestamp := 1700000000000;
     OfflineOperation.retryCount := 0 |}.

Definition sampleStore : OfflineState :=
  {| isOnline := true;
     pendingOperations := [sampleOperation];
     cachedTasks := [];
     cachedChatMessages := [];
     lastSyncTimestamp := 0 |}.

Definition sampleIdSource : IdSource :=
  {| now_for_id := 1700000000000;
     random_suffix := "k3j2h1g0f";
     now_for_timestamp := 1700000000000 |}.

(** A dispatcher whose every request is rejected, and one whose every
    request is answered. *)
Definition alwaysRejects (_ : OfflineOperation.t) : bool := false.
Definition alwaysResolves (_ : OfflineOperation.t) : bool := true.

(** A second operation, queued after [sampleOperation], and the store
    holding both. *)
Definition secondOperation : OfflineOperation.t :=
  {| OfflineOperation.id := "1700000000500p9q8r7s6t";
     OfflineOperation.type := DELETE_TASK;
     OfflineOperation.data := "{id:9}";
     OfflineOperation.timestamp := 1700000000500;
     OfflineOperation.retryCount := 0 |}.

Definition twoOperationStore : OfflineState :=
  {| isOnline := true;
     pendingOperations := [sampleOperation; secondOperation];
     cachedTasks := [];
     cachedChatMessages := [];
     lastSyncTimestamp := 0 |}.

(** A dispatcher whose update requests are answered and whose other
    requests are rejected. *)
Definition resolvesUpdates (operation : OfflineOperation.t) : bool :=
  match OfflineOperation.type operation with
  | UPDATE_TASK => true
  | _ => false
  end.

Definition sampleTask : Task.t :=
  {| Task.id := 7;
     Task.title := "Book the venue";
     Task.description := None;
     Task.due_date := None;
     Task.priority := MEDIUM;
     Task.category := None;
     Task.status := PENDING;
     Task.created_at := "2024-01-01T09:00:00.000Z";
     Task.updated_at := "2024-01-01T09:00:00.000Z";
     Task.calendar_event_id := None;
     Task.ai_generated := false |}.

Definition noUpdates : TaskUpdate.t :=
  {| TaskUpdate.title := None;
     TaskUpdate.description := Absent;
     TaskUpdate.due_date := Absent;
     TaskUpdate.priority := None;
     TaskUpdate.category := Absent;
     TaskUpdate.status := None |}.

Definition statusUpdate (status : TaskStatus) : TaskUpdate.t :=
  {| TaskUpdate.title := None;
     TaskUpdate.description := Absent;
     TaskUpdate.due_date := Absent;
     TaskUpdate.priority := None;
     TaskUpdate.category := Absent;
     TaskUpdate.status := Some status |}.

Definition sampleIso (_ : nat) : string := "2024-01-02T10:30:00.000Z".

Definition sampleClock : Clock :=
  {| Date_now := λ _, 1704191400000;
     iso_detail := "2024-01-02T10:30:00.000Z";
     iso_item := λ _ _, "2024-01-02T10:30:00.000Z" |}.

Definition samplePage (items : list Task.t) : PaginatedResponse.t Task.t :=
  {| PaginatedResponse.items := items;
     PaginatedResponse.total := Z.of_nat (length items);
     PaginatedResponse.page := 1;
     PaginatedResponse.size := 20;
     PaginatedResponse.pages := 1 |}.

Definition sampleParams : string := "{page:1,size:20}".

(** A cache holding task 7 under its detail key and in one list. *)
Definition sampleCache : QueryCache :=
  <[taskQueryKeys_detail 7 := setData (DTask sampleTask) 1704100000000]>
    (<[taskQueryKeys_list sampleParams
         := setData (DTaskPage (samplePage [sampleTask])) 1704100000000]> ∅).

(** A cache holding task 7 in one list only, as after the list view has
    loaded and no detail view has. *)
Definition listOnlyCache : QueryCache :=
  <[taskQueryKeys_list sampleParams
      := setData (DTaskPage (samplePage [sampleTask])) 1704100000000]> ∅.

(** The answer of the server for task 7 once completed. *)
Definition serverTask : Task.t := markCompleted sampleTask "2024-01-02T10:30:01.250Z".

(** The store while offline, with one queued operation. *)
Definition offlineStore : OfflineState := handleOffline sampleStore.

(** ** hooks/useRealTimeSync: useBackgroundSync *)

(** The notifications [useBackgroundSync] can raise. *)
Inductive BackgroundNotification :=
| NotifySuccess (title message : string)
| NotifyError (title message actionLabel : string).

(** The condition under which the effect arms its one-second timer. *)
Definition backgroundSyncArmed (render : OfflineState) : bool :=
  isOnline render && bool_decide (0 < length (pendingOperations render))%nat.

(** [syncPending], the timer's callback: it awaits the drain and then tests
    the queue length it closed over at render.  The drain catches every
    rejection itself, so the [catch] around it, which would raise
    [NotifyError], is never entered. *)
Definition syncPending (process : OfflineOperation.t → bool)
    (render state : OfflineState) : list BackgroundNotification * OfflineState :=
  let '(_, final) := processPendingOperations process render state in
  (if bool_decide (0 < length (pendingOperations render))%nat then
     [NotifySuccess "Sync Complete"
        (pretty (length (pendingOperations render))
           +:+ " pending changes have been synced.")]
   else [],
   final).

(** The effect of [useBackgroundSync] with its timer run to completion on
    the store as it is when the timer fires. *)
Definition backgroundSync (process : OfflineOperation.t → bool)
    (render state : OfflineState) : list BackgroundNotification * OfflineState :=
  if backgroundSyncArmed render then syncPending process render state
  else ([], state).

(** ** hooks/useChat: the conversation *)

Module ChatResponse.
Record t := mk {
  message : ChatMessage.t;
  generated_tasks : list GeneratedTask.t
}.
End ChatResponse.

(** The object [{ page, size }] of a chat key, by the text standing for its
    hash. *)
Definition pageSizeParams (page size : Z) : string :=
  "{page:" +:+ pretty page +:+ ",size:" +:+ pretty size +:+ "}".

(** What the environment supplies to one [addUserMessage]: [Date.now()] for
    the temporary id, [new Date().toISOString()] for the timestamp, and the
    [Date.now()] the library reads when it writes the query. *)
Record MessageClock := mkMessageClock {
  now_for_message_id : Z;
  iso_for_message : string;
  now_for_write : Z
}.

(** The updater of [addUserMessage]: a first page is made when there is
    none, else the message is put before the cached items and [total] is
    raised; other shapes are not stored under chat keys and are left. *)
Definition prependMessage (userMessage : ChatMessage.t) (old : option QueryData)
    : option QueryData :=
  match old with
  | None =>
      Some (DChatPage
        {| PaginatedResponse.items := [userMessage];
           PaginatedResponse.total := 1;
           PaginatedResponse.page := 1;
           PaginatedResponse.size := 50;
           PaginatedResponse.pages := 1 |})
  | Some (DChatPage page) =>
      Some (DChatPage
        (withItemsTotal page (userMessage :: PaginatedResponse.items page)
           (PaginatedResponse.total page + 1)))
  | Some other => Some other
  end.

Definition addUserMessage (content : string) (clock : MessageClock)
    (cache : QueryCache) : ChatMessage.t * QueryCache :=
  let userMessage :=
    {| ChatMessage.id := now_for_message_id clock;
       ChatMessage.content := content;
       ChatMessage.role := USER;
       ChatMessage.timestamp := iso_for_message clock;
       ChatMessage.generated_tasks := None |} in
  let currentQueryKey := chatQueryKeys_messagesList (pageSizeParams 1 50) in
  (userMessage,
   setQueryData currentQueryKey (prependMessage userMessage) (now_for_write clock)
     cache).

(** [useGenerateTasks]: on success the chat message queries are invalidated
    (the refetch scheduled 200 ms later runs in a later task). *)
Definition useGenerateTasks (response : ApiResult ChatResponse.t)
    : QueryCache → QueryCache * ApiResult ChatResponse.t :=
  useMutation (λ cache, (cache, response))
    (λ _ cache, invalidateQueries chatQueryKeys_messages cache).

(** [sendPrompt] on the pair of the cache and the [isManuallyLoading] flag:
    the message is added, the flag raised, the mutation awaited, and the
    flag lowered in the [finally]. *)
Definition sendPrompt (prompt : string) (clock : MessageClock)
    (response : ApiResult ChatResponse.t) (st : QueryCache * bool)
    : (QueryCache * bool) * ApiResult ChatResponse.t :=
  let '(_, cache1) := addUserMessage prompt clock st.1 in
  let loading1 := true in
  let '(cache2, result) := useGenerateTasks response cache1 in
  let loading2 := false in
  ((cache2, loading2), result).

Definition refreshMessages (cache : QueryCache) : QueryCache :=
  invalidateQueries chatQueryKeys_messages cache.

(** [getQueryData<PaginatedResponse<ChatMessage>>(queryKey)]. *)
Definition getChatPage (queryKey : QueryKey) (cache : QueryCache)
    : option (PaginatedResponse.t ChatMessage.t) :=
  match getQueryData queryKey cache with
  | Some (DChatPage page) => Some page
  | _ => None
  end.

Definition sampleMessageClock : MessageClock :=
  {| now_for_message_id := 1704191400000;
     iso_for_message := "2024-01-02T10:30:00.000Z";
     now_for_write := 1704191400001 |}.

(** ** App.tsx: creating a task *)

Module TaskCreate.
(** [interface TaskCreate]. *)
Record t := mk {
  title : string;
  description : option string;
  due_date : option string;
  priority : Priority;
  category : option string;
  ai_generated : option bool
}.
End TaskCreate.

(** What the environment supplies to one [handleCreateTask]: [Date.now()]
    for the id and the two readings of [new Date().toISOString()]. *)
Record CreateClock := mkCreateClock {
  now_for_task_id : Z;
  iso_created : string;
  iso_updated : string
}.

(** [handleCreateTask]: the new task is put before the others, PENDING,
    with [ai_generated] defaulting to [false]. *)
Definition handleCreateTask (clock : CreateClock) (taskData : TaskCreate.t)
    (prev : list Task.t) : list Task.t :=
  {| Task.id := now_for_task_id clock;
     Task.title := TaskCreate.title taskData;
     Task.description := TaskCreate.description taskData;
     Task.due_date := TaskCreate.due_date taskData;
     Task.priority := TaskCreate.priority taskData;
     Task.category := TaskCreate.category taskData;
     Task.status := PENDING;
     Task.created_at := iso_created clock;
     Task.updated_at := iso_updated clock;
     Task.calendar_event_id := None;
     Task.ai_generated := default false (TaskCreate.ai_generated taskData) |}
  :: prev.

(** ** Array.prototype.slice *)

(** A relative index of [slice] resolved against the length: a negative
    index counts from the end, and the result is clamped to the array. *)
Definition sliceIndex (len : nat) (index : Z) : nat :=
  if decide (index < 0) then Z.to_nat (Z.max (Z.of_nat len + index) 0)
  else Nat.min (Z.to_nat index) len.

Definition slice {A : Type} (start finish : Z) (l : list A) : list A :=
  let from := sliceIndex (length l) start in
  let to := sliceIndex (length l) finish in
  take (to - from) (drop from l).

(** ** components/tasks/TaskList.tsx: pagination *)

Definition ITEMS_PER_PAGE : Z := 10.

(** [Math.ceil(length / ITEMS_PER_PAGE)]. *)
Definition totalPages {A : Type} (tasks : list A) : Z :=
  (Z.of_nat (length tasks) + ITEMS_PER_PAGE - 1) / ITEMS_PER_PAGE.

Definition paginatedTasks {A : Type} (currentPage : Z) (tasks : list A) : list A :=
  slice ((currentPage - 1) * ITEMS_PER_PAGE) (currentPage * ITEMS_PER_PAGE) tasks.

(** The handlers of the previous and next buttons. *)
Definition previousPage (currentPage : Z) : Z := Z.max 1 (currentPage - 1).
Definition nextPage (pages currentPage : Z) : Z := Z.min pages (currentPage + 1).

(** ** hooks/useCaching *)

Module CacheConfig.
Record t := mk {
  maxAge : Z;
  maxSize : Z;
  persistOffline : bool
}.
End CacheConfig.

Module PartialCacheConfig.
(** [Partial<CacheConfig>], the argument of [useCaching]. *)
Record t := mk {
  maxAge : option Z;
  maxSize : option Z;
  persistOffline : option bool
}.
End PartialCacheConfig.

Definition DEFAULT_CACHE_CONFIG : CacheConfig.t :=
  {| CacheConfig.maxAge := 10 * 60 * 1000;
     CacheConfig.maxSize := 1000;
     CacheConfig.persistOffline := true |}.

(** [{ ...DEFAULT_CACHE_CONFIG, ...config }]. *)
Definition finalConfig (config : PartialCacheConfig.t) : CacheConfig.t :=
  {| CacheConfig.maxAge :=
       default (CacheConfig.maxAge DEFAULT_CACHE_CONFIG)
         (PartialCacheConfig.maxAge config);
     CacheConfig.maxSize :=
       default (CacheConfig.maxSize DEFAULT_CACHE_CONFIG)
         (PartialCacheConfig.maxSize config);
     CacheConfig.persistOffline :=
       default (CacheConfig.persistOffline DEFAULT_CACHE_CONFIG)
         (PartialCacheConfig.persistOffline config) |}.

(** The [forEach] of [cacheTasksData]: each task is written under its
    detail key, in array order; [now i] is the clock reading of the write
    for the task at position [i]. *)
Fixpoint writeDetails (now : nat → Z) (i : nat) (tasks : list Task.t)
    (cache : QueryCache) : QueryCache :=
  match tasks with
  | [] => cache
  | task :: rest =>
      writeDetails now (S i) rest
        (setQueryData (taskQueryKeys_detail (Task.id task))
           (λ _, Some (DTask task)) (now i) cache)
  end.

Definition cacheTasksData (config : PartialCacheConfig.t) (now : nat → Z)
    (tasks : list Task.t) (state : OfflineState) (cache : QueryCache)
    : OfflineState * QueryCache :=
  if negb (CacheConfig.persistOffline (finalConfig config)) then (state, cache)
  else
    let limitedTasks := slice 0 (CacheConfig.maxSize (finalConfig config)) tasks in
    (setCachedTasks limitedTasks state, writeDetails now 0 tasks cache).

Definition cacheChatData (config : PartialCacheConfig.t)
    (messages : list ChatMessage.t) (state : OfflineState) : OfflineState :=
  if negb (CacheConfig.persistOffline (finalConfig config)) then state
  else
    setCachedChatMessages
      (slice 0 (CacheConfig.maxSize (finalConfig config)) messages) state.

Definition noCacheConfig : PartialCacheConfig.t :=
  {| PartialCacheConfig.maxAge := None;
     PartialCacheConfig.maxSize := None;
     PartialCacheConfig.persistOffline := None |}.

(** ** utils: the text escaping of the ICS export *)

(** [text.replace(/c/g, rep)] for a pattern that is the single character
    [c]. *)
Fixpoint replaceAll (c : Ascii.ascii) (rep : string) (text : string) : string :=
  match text with
  | EmptyString => EmptyString
  | String a rest =>
      if decide (a = c) then rep +:+ replaceAll c rep rest
      else String a (replaceAll c rep rest)
  end.

Definition backslash : Ascii.ascii := "\"%char.
Definition lineFeed : Ascii.ascii := "010"%char.
Definition carriageReturn : Ascii.ascii := "013"%char.

(** [escapeICSText] of [generateICSContent]: the five replacements, in the
    order of the source. *)
Definition escapeICSText (text : string) : string :=
  if decide (text = "") then ""
  else
    replaceAll carriageReturn "\r"
      (replaceAll lineFeed "\n"
         (replaceAll ","%char "\,"
            (replaceAll ";"%char "\;"
               (replaceAll backslash "\\" text)))).

(** What the five replacements make of one character. *)
Definition escapedChar (a : Ascii.ascii) : string :=
  if decide (a = backslash) then "\\"
  else if decide (a = ";"%char) then "\;"
  else if decide (a = ","%char) then "\,"
  else if decide (a = lineFeed) then "\n"
  else if decide (a = carriageReturn) then "\r"
  else String a "".

(** The reading back of an escaped text, used to show that escaping loses
    nothing. *)
Fixpoint unescapeICSText (text : string) : string :=
  match text with
  | EmptyString => EmptyString
  | String a rest =>
      if decide (a = backslash) then
        match rest with
        | EmptyString => String a EmptyString
        | String b rest' =>
            String (if decide (b = "n"%char) then lineFeed
                    else if decide (b = "r"%char) then carriageReturn
                    else b)
              (unescapeICSText rest')
        end
      else String a (unescapeICSText rest)
  end.

(** * Properties *)

(** ** The offline store *)

Section StoreFacts.
Implicit Types (state render : OfflineState) (operation op : OfflineOperation.t).

Lemma queuedIds_remove id state :
  queuedIds (removePendingOperation id state) = filter (λ i, i ≠ id) (queuedIds state).
Proof.
  unfold queuedIds, removePendingOperation. simpl.
  induction (pendingOperations state) as [|op ops IH]; [done|].
  rewrite fmap_cons, !filter_cons.
  destruct (decide (OfflineOperation.id op ≠ id)); rewrite ?fmap_cons; by rewrite IH.
Qed.

Lemma queuedIds_increment id state :
  queuedIds (incrementRetryCount id state) = queuedIds state.
Proof.
  unfold queuedIds, incrementRetryCount. simpl.
  rewrite <- list_fmap_compose. apply list_fmap_ext. intros _ op _. simpl.
  by destruct (decide (OfflineOperation.id op = id)).
Qed.

Lemma not_queued_after_remove id state :
  id ∉ queuedIds (removePendingOperation id state).
Proof. rewrite queuedIds_remove, list_elem_of_filter. by intros [? _]. Qed.

Lemma isOnline_remove id state :
  isOnline (removePendingOperation id state) = isOnline state.
Proof. done. Qed.

Lemma isOnline_increment id state :
  isOnline (incrementRetryCount id state) = isOnline state.
Proof. done. Qed.

Variable process : OfflineOperation.t → bool.

Lemma drainStep_sublist state operation :
  queuedIds (drainStep process state operation) `sublist_of` queuedIds state.
Proof.
  unfold drainStep.
  repeat case_match; rewrite ?queuedIds_remove, ?queuedIds_increment;
    auto using sublist_filter.
Qed.

Lemma drainStep_isOnline state operation :
  isOnline (drainStep process state operation) = isOnline state.
Proof. unfold drainStep. by repeat case_match. Qed.

Lemma drainLoop_sublist operations state :
  queuedIds (drainLoop process operations state).2 `sublist_of` queuedIds state.
Proof.
  revert state. induction operations as [|operation rest IH]; intros state; simpl.
  - done.
  - specialize (IH (drainStep process state operation)).
    destruct (drainLoop process rest _) as [log final]. simpl in *.
    etrans; [exact IH|]. apply drainStep_sublist.
Qed.

Lemma drainLoop_isOnline operations state :
  isOnline (drainLoop process operations state).2 = isOnline state.
Proof.
  revert state. induction operations as [|operation rest IH]; intros state; simpl.
  - done.
  - specialize (IH (drainStep process state operation)).
    destruct (drainLoop process rest _) as [log final]. simpl in *.
    by rewrite IH, drainStep_isOnline.
Qed.

Lemma drainLoop_dispatched operations state :
  dispatched <$> (drainLoop process operations state).1 = operations.
Proof.
  revert state. induction operations as [|operation rest IH]; intros state; simpl.
  - done.
  - specialize (IH (drainStep process state operation)).
    destruct (drainLoop process rest _) as [log final]. simpl in *.
    by f_equal.
Qed.

Lemma processPendingOperations_sublist render state :
  queuedIds (processPendingOperations process render state).2
    `sublist_of` queuedIds state.
Proof.
  unfold processPendingOperations. case_match; [done|]. apply drainLoop_sublist.
Qed.

Lemma processPendingOperations_isOnline render state :
  isOnline (processPendingOperations process render state).2 = isOnline state.
Proof.
  unfold processPendingOperations. case_match; [done|]. apply drainLoop_isOnline.
Qed.

Lemma processPendingOperations_dispatched render state :
  isOnline render = true →
  dispatched <$> (processPendingOperations process render state).1
  = pendingOperations render.
Proof.
  intros Hon. unfold processPendingOperations. rewrite Hon. simpl.
  case_bool_decide as Hlen.
  - by destruct (pendingOperations render).
  - apply drainLoop_dispatched.
Qed.

Lemma drain_sublist state :
  queuedIds (drain process state) `sublist_of` queuedIds state.
Proof. apply processPendingOperations_sublist. Qed.

Lemma drain_isOnline state : isOnline (drain process state) = isOnline state.
Proof. apply processPendingOperations_isOnline. Qed.

Lemma drainLoop_queue_sublist operations state d :
  d ∈ (drainLoop process operations state).1 →
  OfflineOperation.id <$> queue_at_dispatch d `sublist_of` queuedIds state.
Proof.
  revert state. induction operations as [|operation rest IH]; intros state; simpl.
  - by intros ?%elem_of_nil.
  - specialize (IH (drainStep process state operation)).
    destruct (drainLoop process rest _) as [log final]. simpl in *.
    intros [->|Hd]%elem_of_cons; [done|].
    etrans; [by apply IH|]. apply drainStep_sublist.
Qed.

Lemma drainStep_resolved state operation :
  process operation = true →
  OfflineOperation.id operation ∉ queuedIds (drainStep process state operation).
Proof.
  intros Hok. unfold drainStep. rewrite Hok. apply not_queued_after_remove.
Qed.

(** The store queue seen by a later dispatch of the loop no longer holds an
    operation that an earlier dispatch resolved. *)
Lemma drainLoop_resolved_removed operations state i j di dj :
  (drainLoop process operations state).1 !! i = Some di →
  (drainLoop process operations state).1 !! j = Some dj →
  (i < j)%nat →
  resolved di = true →
  OfflineOperation.id (dispatched di) ∉ OfflineOperation.id <$> queue_at_dispatch dj.
Proof.
  revert state i j. induction operations as [|operation rest IH]; intros state i j; simpl.
  - done.
  - pose proof (IH (drainStep process state operation)) as IH'.
    pose proof (drainLoop_queue_sublist rest (drainStep process state operation) dj)
      as Hsub.
    destruct (drainLoop process rest (drainStep process state operation))
      as [log final]. simpl in *.
    intros Hi Hj Hlt Hres. destruct j as [|j]; [lia|]. simpl in Hj.
    destruct i as [|i]; simpl in Hi.
    + injection Hi as <-. simpl in *.
      intros Hin. eapply drainStep_resolved; [exact Hres|].
      eapply elem_of_sublist; [exact Hin|]. apply Hsub.
      by eapply list_elem_of_lookup_2.
    + eapply IH'; eauto. lia.
Qed.

(** Nor does the store queue the loop leaves behind. *)
Lemma drainLoop_resolved_gone operations state d :
  d ∈ (drainLoop process operations state).1 →
  resolved d = true →
  OfflineOperation.id (dispatched d) ∉ queuedIds (drainLoop process operations state).2.
Proof.
  revert state. induction operations as [|operation rest IH]; intros state; simpl.
  - by intros ?%elem_of_nil.
  - specialize (IH (drainStep process state operation)).
    pose proof (drainLoop_sublist rest (drainStep process state operation)) as Hsub.
    destruct (drainLoop process rest _) as [log final]. simpl in *.
    intros [->|Hd]%elem_of_cons Hres; [|by apply IH].
    simpl in *. intros Hin. eapply drainStep_resolved; [exact Hres|].
    eapply elem_of_sublist; [exact Hin|exact Hsub].
Qed.

End StoreFacts.

Section DrainOnFreshRender.
Implicit Types (state : OfflineState) (op : OfflineOperation.t).

Lemma NoDup_fmap_eq {A B : Type} (f : A → B) (l : list A) x y :
  NoDup (f <$> l) → x ∈ l → y ∈ l → f x = f y → x = y.
Proof.
  induction l as [|a l IH]; [by intros _ ?%elem_of_nil|].
  rewrite fmap_cons, NoDup_cons, list_elem_of_fmap.
  intros [Hnot Hnd] [->|Hx]%elem_of_cons [->|Hy]%elem_of_cons Heq; eauto.
  - destruct Hnot; eauto.
  - destruct Hnot; eauto.
Qed.

Lemma remove_absent id (ops : list OfflineOperation.t) :
  id ∉ OfflineOperation.id <$> ops →
  filter (λ op, OfflineOperation.id op ≠ id) ops = ops.
Proof.
  induction ops as [|op ops IH]; [done|].
  rewrite fmap_cons, not_elem_of_cons. intros [Hne Hnot].
  rewrite filter_cons_True by done. by rewrite IH.
Qed.

Lemma increment_absent id (ops : list OfflineOperation.t) :
  id ∉ OfflineOperation.id <$> ops →
  (λ op, if decide (OfflineOperation.id op = id) then bumpRetry op else op) <$> ops
  = ops.
Proof.
  induction ops as [|op ops IH]; [done|].
  rewrite !fmap_cons, not_elem_of_cons. intros [Hne Hnot].
  rewrite decide_False by done. by rewrite IH.
Qed.

Variable process : OfflineOperation.t → bool.

(** The loop over the tail of the queue, once the head part has been dealt
    with: each remaining operation is dropped or bumped in place. *)
Lemma drainLoop_spec (rest done_ : list OfflineOperation.t) state :
  pendingOperations state = done_ ++ rest →
  NoDup (OfflineOperation.id <$> done_ ++ rest) →
  pendingOperations (drainLoop process rest state).2
  = done_ ++ omap (afterDrain process) rest.
Proof.
  revert done_ state.
  induction rest as [|op rest IH]; intros done_ state Hq Hnd; simpl.
  - by rewrite Hq.
  - pose proof Hnd as Hnd'.
    rewrite fmap_app, fmap_cons, NoDup_app, NoDup_cons in Hnd'.
    destruct Hnd' as (Hnd1 & Hdisj & Hop & Hnd2).
    assert (Hdone : OfflineOperation.id op ∉ OfflineOperation.id <$> done_).
    { intros Hin. eapply Hdisj; [exact Hin|]. left. }
    assert (Hremove :
      pendingOperations (removePendingOperation (OfflineOperation.id op) state)
      = done_ ++ rest).
    { unfold removePendingOperation. simpl.
      rewrite Hq, filter_app, filter_cons_False by (by intros []).
      by rewrite !remove_absent. }
    assert (Hbump :
      pendingOperations (incrementRetryCount (OfflineOperation.id op) state)
      = (done_ ++ [bumpRetry op]) ++ rest).
    { unfold incrementRetryCount. simpl.
      rewrite Hq, fmap_app, fmap_cons, decide_True by done.
      rewrite !increment_absent by done. by rewrite <- app_assoc. }
    assert (Hnd_rm : NoDup (OfflineOperation.id <$> done_ ++ rest)).
    { rewrite fmap_app, NoDup_app. split_and!; [done| |done].
      intros x Hx Hx'. eapply Hdisj; [exact Hx|]. by right. }
    assert (Hnd_bump :
      NoDup (OfflineOperation.id <$> (done_ ++ [bumpRetry op]) ++ rest)).
    { rewrite <- app_assoc. simpl. by rewrite fmap_app, fmap_cons in *. }
    unfold afterDrain at 1, drainStep.
    destruct (process op).
    { specialize (IH done_ _ Hremove Hnd_rm).
      destruct (drainLoop process rest _) as [log final]. exact IH. }
    destruct (decide (3 ≤ OfflineOperation.retryCount op)).
    { specialize (IH done_ _ Hremove Hnd_rm).
      destruct (drainLoop process rest _) as [log final]. exact IH. }
    specialize (IH _ _ Hbump Hnd_bump).
    destruct (drainLoop process rest _) as [log final]. simpl in *.
    by rewrite IH, <- app_assoc.
Qed.

(** A drain from a fresh render, on a queue whose ids are distinct. *)
Lemma drain_spec state :
  isOnline state = true →
  NoDup (queuedIds state) →
  pendingOperations (drain process state)
  = omap (afterDrain process) (pendingOperations state).
Proof.
  intros Hon Hnd. unfold drain, processPendingOperations. rewrite Hon. simpl.
  case_bool_decide as Hlen; simpl.
  - by destruct (pendingOperations state).
  - by apply (drainLoop_spec _ []).
Qed.

Lemma afterDrain_id op op' :
  afterDrain process op = Some op' → OfflineOperation.id op' = OfflineOperation.id op.
Proof. unfold afterDrain. repeat case_match; naive_solver. Qed.

(** A rejected operation below the ceiling stays, with its counter
    incremented. *)
Lemma drain_rejected_below state op :
  isOnline state = true →
  NoDup (queuedIds state) →
  op ∈ pendingOperations state →
  process op = false →
  OfflineOperation.retryCount op < 3 →
  bumpRetry op ∈ pendingOperations (drain process state).
Proof.
  intros Hon Hnd Hin Hrej Hlt. rewrite drain_spec by done.
  apply list_elem_of_omap. exists op. split; [done|].
  unfold afterDrain. rewrite Hrej. by rewrite decide_False by lia.
Qed.

(** A rejected operation whose counter has reached 3 is dropped. *)
Lemma drain_rejected_at_ceiling state op :
  isOnline state = true →
  NoDup (queuedIds state) →
  op ∈ pendingOperations state →
  process op = false →
  3 ≤ OfflineOperation.retryCount op →
  OfflineOperation.id op ∉ queuedIds (drain process state).
Proof.
  intros Hon Hnd Hin Hrej Hge. unfold queuedIds. rewrite drain_spec by done.
  intros (op' & Hid & (o & Ho & Hafter)%list_elem_of_omap)%list_elem_of_fmap.
  pose proof (afterDrain_id _ _ Hafter) as Hid'.
  assert (o = op) as ->.
  { eapply (NoDup_fmap_eq OfflineOperation.id); eauto. congruence. }
  unfold afterDrain in Hafter. rewrite Hrej in Hafter.
  by rewrite decide_True in Hafter by done.
Qed.

End DrainOnFreshRender.

Lemma drains_sublist processes state :
  queuedIds (drains processes state) `sublist_of` queuedIds state.
Proof.
  revert state. induction processes as [|process processes IH]; intros state; simpl.
  - done.
  - etrans; [apply IH|]. apply drain_sublist.
Qed.

Lemma drains_app processes more state :
  drains (processes ++ more) state = drains more (drains processes state).
Proof. apply foldl_app. Qed.

Lemma bumpRetry_iter_id n op :
  OfflineOperation.id (Nat.iter n bumpRetry op) = OfflineOperation.id op.
Proof. induction n as [|n IH]; [done|]. simpl. exact IH. Qed.

Lemma bumpRetry_iter_count n op :
  OfflineOperation.retryCount (Nat.iter n bumpRetry op)
  = OfflineOperation.retryCount op + Z.of_nat n.
Proof.
  induction n as [|n IH]; simpl; [lia|]. rewrite IH. lia.
Qed.

(** Repeated drains in which every attempt at the operation is rejected. *)
Lemma drains_rejected processes :
  ∀ state op,
    isOnline state = true →
    NoDup (queuedIds state) →
    op ∈ pendingOperations state →
    (∀ process o, process ∈ processes →
       OfflineOperation.id o = OfflineOperation.id op → process o = false) →
    (OfflineOperation.retryCount op + Z.of_nat (length processes) ≤ 3 →
       Nat.iter (length processes) bumpRetry op
         ∈ pendingOperations (drains processes state))
    ∧ (Z.max 0 (3 - OfflineOperation.retryCount op) < Z.of_nat (length processes) →
       OfflineOperation.id op ∉ queuedIds (drains processes state)).
Proof.
  induction processes as [|process processes IH]; intros state op Hon Hnd Hin Hrej.
  - simpl. split; [done|lia].
  - cbn [length].
    assert (Hon' : isOnline (drain process state) = true)
      by by rewrite drain_isOnline.
    assert (Hnd' : NoDup (queuedIds (drain process state)))
      by (eapply sublist_NoDup; [exact Hnd|apply drain_sublist]).
    assert (Hrej1 : process op = false) by (apply Hrej; [left|done]).
    destruct (decide (OfflineOperation.retryCount op < 3)) as [Hlt|Hge].
    + pose proof (drain_rejected_below process state op Hon Hnd Hin Hrej1 Hlt) as Hin'.
      destruct (IH (drain process state) (bumpRetry op) Hon' Hnd' Hin') as [IH1 IH2].
      { intros p o Hp Ho. apply Hrej; [by right|done]. }
      simpl in IH1, IH2. split; intros Hlen.
      * rewrite Nat.iter_succ_r. apply IH1. lia.
      * apply IH2. lia.
    + split; intros Hlen; [lia|].
      intros Hq. eapply (drain_rejected_at_ceiling process state op); eauto; [lia|].
      eapply elem_of_sublist; [exact Hq|]. apply (drains_sublist processes).
Qed.

(** C2 (as the code has it): of an operation queued with retry counter 0
    whose every dispatch is rejected, the first three drains each increment
    the counter and keep the operation queued; the drain that finds the
    counter at 3, the fourth, removes it, and no later drain, whatever its
    outcomes, brings it back. *)
Theorem rejected_operation_dropped_by_fourth_drain
    (processes more : list (OfflineOperation.t → bool))
    (state : OfflineState) (op : OfflineOperation.t) :
  isOnline state = true →
  NoDup (queuedIds state) →
  op ∈ pendingOperations state →
  OfflineOperation.retryCount op = 0 →
  (∀ process o, process ∈ processes →
     OfflineOperation.id o = OfflineOperation.id op → process o = false) →
  ((length processes ≤ 3)%nat →
     Nat.iter (length processes) bumpRetry op
       ∈ pendingOperations (drains processes state)
     ∧ OfflineOperation.retryCount (Nat.iter (length processes) bumpRetry op)
       = Z.of_nat (length processes))
  ∧ ((4 ≤ length processes)%nat →
     OfflineOperation.id op ∉ queuedIds (drains (processes ++ more) state)).
Proof.
  intros Hon Hnd Hin Hzero Hrej.
  destruct (drains_rejected processes state op Hon Hnd Hin Hrej) as [H1 H2].
  split; intros Hlen.
  - split; [apply H1; lia|]. rewrite bumpRetry_iter_count. lia.
  - rewrite drains_app. intros Hq. apply H2; [lia|].
    eapply elem_of_sublist; [exact Hq|]. apply drains_sublist.
Qed.

Lemma sampleStore_NoDup : NoDup (queuedIds sampleStore).
Proof. apply NoDup_singleton. Qed.

Lemma rejected_operation_dropped_by_fourth_drain_witness :
  OfflineOperation.id sampleOperation
    ∉ queuedIds (drains ([alwaysRejects; alwaysRejects; alwaysRejects; alwaysRejects]
                           ++ [alwaysResolves]) sampleStore).
Proof.
  refine (proj2 (rejected_operation_dropped_by_fourth_drain
    [alwaysRejects; alwaysRejects; alwaysRejects; alwaysRejects] [alwaysResolves]
    sampleStore sampleOperation _ _ _ _ _) _).
  - reflexivity.
  - exact sampleStore_NoDup.
  - left.
  - reflexivity.
  - intros process o Hp _.
    repeat (apply elem_of_cons in Hp as [->|Hp]; [reflexivity|]).
    by apply elem_of_nil in Hp.
  - simpl. lia.
Defined.

(** C2 (as stated) fails: after three drains that each reject the operation
    it is still queued, now with retry counter 3. *)
Lemma three_rejections_do_not_remove :
  ¬ (∀ (process : OfflineOperation.t → bool) (state : OfflineState)
       (op : OfflineOperation.t),
       isOnline state = true →
       NoDup (queuedIds state) →
       op ∈ pendingOperations state →
       OfflineOperation.retryCount op = 0 →
       (∀ o, process o = false) →
       OfflineOperation.id op ∉ queuedIds (drains [process; process; process] state)).
Proof.
  intros Hclaim.
  apply (Hclaim alwaysRejects sampleStore sampleOperation);
    [reflexivity|exact sampleStore_NoDup|left|reflexivity|reflexivity|].
  vm_compute. left.
Qed.

Lemma drainLoop_resolved_field process operations state d :
  d ∈ (drainLoop process operations state).1 →
  resolved d = process (dispatched d).
Proof.
  revert state. induction operations as [|operation rest IH]; intros state; simpl.
  - by intros ?%elem_of_nil.
  - specialize (IH (drainStep process state operation)).
    destruct (drainLoop process rest _) as [log final]. simpl in *.
    by intros [->|Hd]%elem_of_cons; [|apply IH].
Qed.

Lemma processPendingOperations_dispatched_in process render state d :
  d ∈ (processPendingOperations process render state).1 →
  dispatched d ∈ pendingOperations render.
Proof.
  unfold processPendingOperations. case_match; simpl.
  - by intros ?%elem_of_nil.
  - intros Hd. rewrite <- (drainLoop_dispatched process _ state).
    apply list_elem_of_fmap. eauto.
Qed.

(** A drain from a fresh render in which every dispatch resolves empties the
    queue; with [processOperation] as the source has it, every drain does. *)
Lemma drain_all_resolved (process : OfflineOperation.t → bool) (state : OfflineState) :
  isOnline state = true →
  (∀ op, op ∈ pendingOperations state → process op = true) →
  pendingOperations (drain process state) = [].
Proof.
  intros Hon Hall.
  destruct (pendingOperations (drain process state)) as [|o rest] eqn:Hfinal; [done|].
  exfalso.
  assert (Ho : OfflineOperation.id o ∈ queuedIds (drain process state)).
  { unfold queuedIds. rewrite Hfinal, fmap_cons. left. }
  pose proof (elem_of_sublist _ _ _ Ho (drain_sublist process state)) as Hin.
  apply list_elem_of_fmap in Hin as (op & Hid & Hop).
  pose proof (processPendingOperations_dispatched process state state Hon) as Hlog.
  rewrite <- Hlog in Hop. apply list_elem_of_fmap in Hop as (d & -> & Hd).
  assert (Hres : resolved d = true).
  { unfold processPendingOperations in Hd. case_match; simpl in Hd.
    - by apply elem_of_nil in Hd.
    - rewrite (drainLoop_resolved_field process _ _ d Hd). apply Hall.
      rewrite <- (drainLoop_dispatched process (pendingOperations state) state).
      apply list_elem_of_fmap. eauto. }
  revert Ho. rewrite Hid. unfold drain, processPendingOperations in *.
  case_match; simpl in *.
  - by apply elem_of_nil in Hd.
  - by apply drainLoop_resolved_gone.
Qed.

Lemma drain_processOperation_empties (state : OfflineState) :
  isOnline state = true →
  pendingOperations (drain processOperation state) = [].
Proof.
  intros Hon. apply drain_all_resolved; [done|].
  intros op _. unfold processOperation. by destruct (OfflineOperation.type op).
Qed.

Section DrainQueue.
Variable process : OfflineOperation.t → bool.

(** One iteration touches the entries with the id of the iterated operation
    only. *)
Lemma drainStep_keeps_others (state : OfflineState) (op o : OfflineOperation.t) :
  o ∈ pendingOperations state →
  OfflineOperation.id o ≠ OfflineOperation.id op →
  o ∈ pendingOperations (drainStep process state op).
Proof.
  intros Hin Hne.
  assert (Hremove :
    o ∈ pendingOperations (removePendingOperation (OfflineOperation.id op) state)).
  { unfold removePendingOperation. simpl. by apply list_elem_of_filter. }
  unfold drainStep. repeat case_match; try exact Hremove.
  unfold incrementRetryCount. simpl. apply list_elem_of_fmap.
  exists o. by rewrite decide_False.
Qed.

(** At each dispatch of the loop the store still holds, as they were, the
    entries whose ids the loop has not iterated over yet. *)
Lemma drainLoop_keeps_unattempted (operations : list OfflineOperation.t)
    (state : OfflineState) (j : nat) (dj : Dispatch) (o : OfflineOperation.t) :
  (drainLoop process operations state).1 !! j = Some dj →
  o ∈ pendingOperations state →
  OfflineOperation.id o ∉ OfflineOperation.id <$> take j operations →
  o ∈ queue_at_dispatch dj.
Proof.
  revert state j. induction operations as [|op rest IH]; intros state j; simpl.
  - by rewrite lookup_nil.
  - specialize (IH (drainStep process state op)).
    destruct (drainLoop process rest _) as [log final]. simpl in *.
    destruct j as [|j]; simpl.
    + by intros [= <-] Hin _.
    + rewrite not_elem_of_cons. intros Hj Hin [Hne Hnot].
      eapply IH; [exact Hj| |exact Hnot]. by apply drainStep_keeps_others.
Qed.

(** One iteration on a queue of distinct ids: the iterated operation is
    dropped or bumped in place, the rest of the queue is as it was. *)
Lemma drainStep_spec (done_ rest : list OfflineOperation.t) (op : OfflineOperation.t)
    (state : OfflineState) :
  pendingOperations state = done_ ++ op :: rest →
  NoDup (OfflineOperation.id <$> done_ ++ op :: rest) →
  pendingOperations (drainStep process state op)
  = (done_ ++ option_list (afterDrain process op)) ++ rest
  ∧ NoDup (OfflineOperation.id <$> (done_ ++ option_list (afterDrain process op)) ++ rest).
Proof.
  intros Hq Hnd. pose proof Hnd as Hnd'.
  rewrite fmap_app, fmap_cons, NoDup_app, NoDup_cons in Hnd'.
  destruct Hnd' as (Hnd1 & Hdisj & Hop & Hnd2).
  assert (Hdone : OfflineOperation.id op ∉ OfflineOperation.id <$> done_).
  { intros Hin. eapply Hdisj; [exact Hin|]. left. }
  assert (Hremove :
    pendingOperations (removePendingOperation (OfflineOperation.id op) state)
    = (done_ ++ []) ++ rest
    ∧ NoDup (OfflineOperation.id <$> (done_ ++ []) ++ rest)).
  { rewrite app_nil_r. split.
    - unfold removePendingOperation. simpl.
      rewrite Hq, filter_app, filter_cons_False by (by intros []).
      by rewrite !remove_absent.
    - rewrite fmap_app, NoDup_app. split_and!; [done| |done].
      intros x Hx Hx'. eapply Hdisj; [exact Hx|]. by right. }
  unfold afterDrain, drainStep. destruct (process op); [exact Hremove|].
  destruct (decide (3 ≤ OfflineOperation.retryCount op)); [exact Hremove|].
  simpl. split.
  - unfold incrementRetryCount. simpl.
    rewrite Hq, fmap_app, fmap_cons, decide_True by done.
    rewrite !increment_absent by done. by rewrite <- app_assoc.
  - rewrite <- app_assoc. simpl. by rewrite fmap_app, fmap_cons in *.
Qed.

(** The store queue at the [j]-th dispatch of the loop, on a queue of
    distinct ids: what the iterations before it left of the first [j]
    operations, then the operations from the [j]-th on, untouched. *)
Lemma drainLoop_queue_at (rest done_ : list OfflineOperation.t)
    (state : OfflineState) (j : nat) (dj : Dispatch) :
  pendingOperations state = done_ ++ rest →
  NoDup (OfflineOperation.id <$> done_ ++ rest) →
  (drainLoop process rest state).1 !! j = Some dj →
  queue_at_dispatch dj
  = done_ ++ omap (afterDrain process) (take j rest) ++ drop j rest.
Proof.
  revert done_ state j.
  induction rest as [|op rest IH]; intros done_ state j Hq Hnd; simpl.
  - by rewrite lookup_nil.
  - destruct (drainStep_spec done_ rest op state Hq Hnd) as [Hq' Hnd'].
    specialize (IH _ (drainStep process state op) (pred j) Hq' Hnd').
    destruct (drainLoop process rest _) as [log final]. simpl in *.
    destruct j as [|j]; simpl.
    + by intros [= <-].
    + intros Hj. rewrite (IH Hj), <- app_assoc. by destruct (afterDrain process op).
Qed.

End DrainQueue.

(** C3 (as the code has it): operations are appended at the end of the
    queue, and one drain dispatches the queue its component rendered with from the front, each
    entry once, recording each outcome.  An entry whose dispatch resolved
    has left the store before any later entry is dispatched and is absent
    when the drain ends, while the entries whose ids the loop has not reached
    are still in the store as they were; run from a render of the current
    store with distinct ids, the store at the [j]-th dispatch holds what the
    earlier iterations left of the first [j] entries followed by the
    untouched others.  A drain called from a render of the store the drain
    left does not dispatch a resolved entry again; the same drain function
    called again dispatches the queue of its render again. *)
Theorem single_drain_is_fifo_and_serial
    (process : OfflineOperation.t → bool) (render state : OfflineState)
    (type : OperationType) (data : string) (env : IdSource) :
  isOnline render = true →
  let run := processPendingOperations process render state in
  (∃ op, pendingOperations (addPendingOperation type data env state)
         = pendingOperations state ++ [op]
         ∧ OfflineOperation.type op = type
         ∧ OfflineOperation.data op = data
         ∧ OfflineOperation.retryCount op = 0)
  ∧ dispatched <$> run.1 = pendingOperations render
  ∧ (∀ d, d ∈ run.1 → resolved d = process (dispatched d))
  ∧ (∀ i j di dj,
       run.1 !! i = Some di → run.1 !! j = Some dj → (i < j)%nat →
       resolved di = true →
       OfflineOperation.id (dispatched di)
         ∉ OfflineOperation.id <$> queue_at_dispatch dj)
  ∧ (∀ d, d ∈ run.1 → resolved d = true →
       OfflineOperation.id (dispatched d) ∉ queuedIds run.2)
  ∧ (∀ j dj o,
       run.1 !! j = Some dj → o ∈ pendingOperations state →
       OfflineOperation.id o
         ∉ OfflineOperation.id <$> take j (pendingOperations render) →
       o ∈ queue_at_dispatch dj)
  ∧ (render = state → NoDup (queuedIds state) →
       (∀ j dj, run.1 !! j = Some dj →
          queue_at_dispatch dj
          = omap (afterDrain process) (take j (pendingOperations state))
              ++ drop j (pendingOperations state))
       ∧ pendingOperations run.2
         = omap (afterDrain process) (pendingOperations state))
  ∧ (∀ process' d d',
       d ∈ run.1 → resolved d = true →
       d' ∈ (processPendingOperations process' run.2 run.2).1 →
       OfflineOperation.id (dispatched d') ≠ OfflineOperation.id (dispatched d))
  ∧ (∀ process',
       dispatched <$> (processPendingOperations process' render run.2).1
       = pendingOperations render).
Proof.
  intros Hon run.
  assert (Hgone : ∀ d, d ∈ run.1 → resolved d = true →
            OfflineOperation.id (dispatched d) ∉ queuedIds run.2).
  { subst run. unfold processPendingOperations. case_match; simpl.
    - by intros d ?%elem_of_nil.
    - apply drainLoop_resolved_gone. }
  split_and!.
  - eexists. split_and!; reflexivity.
  - by apply processPendingOperations_dispatched.
  - subst run. unfold processPendingOperations. case_match; simpl.
    + by intros d ?%elem_of_nil.
    + apply drainLoop_resolved_field.
  - subst run. unfold processPendingOperations. case_match; simpl.
    + intros i j di dj Hi. by rewrite lookup_nil in Hi.
    + apply drainLoop_resolved_removed.
  - exact Hgone.
  - subst run. unfold processPendingOperations. case_match; simpl.
    + intros j dj o Hj. by rewrite lookup_nil in Hj.
    + apply drainLoop_keeps_unattempted.
  - intros -> Hnd. split.
    + subst run. unfold processPendingOperations. case_match; simpl.
      * intros j dj Hj. by rewrite lookup_nil in Hj.
      * intros j dj Hj. by apply (drainLoop_queue_at process _ [] state j dj).
    + by apply drain_spec.
  - intros process' d d' Hd Hres Hd' Heq.
    apply (Hgone d Hd Hres). rewrite <- Heq.
    apply list_elem_of_fmap. exists (dispatched d'). split; [done|].
    exact (processPendingOperations_dispatched_in process' _ _ d' Hd').
  - intros process'. by apply processPendingOperations_dispatched.
Qed.

Lemma twoOperationStore_NoDup : NoDup (queuedIds twoOperationStore).
Proof.
  apply NoDup_cons. split; [|apply NoDup_singleton].
  by intros [=]%list_elem_of_singleton.
Qed.

Lemma single_drain_is_fifo_and_serial_witness :
  let run := processPendingOperations resolvesUpdates twoOperationStore twoOperationStore in
  dispatched <$> run.1 = [sampleOperation; secondOperation]
  ∧ (∀ dj, run.1 !! 1%nat = Some dj → queue_at_dispatch dj = [secondOperation])
  ∧ pendingOperations run.2 = [bumpRetry secondOperation].
Proof.
  destruct (single_drain_is_fifo_and_serial resolvesUpdates twoOperationStore
              twoOperationStore UPDATE_TASK "{id:7}" sampleIdSource eq_refl)
    as (_ & Horder & _ & _ & _ & _ & Hqueue & _).
  destruct (Hqueue eq_refl twoOperationStore_NoDup) as [Hat Hend].
  split_and!.
  - exact Horder.
  - intros dj Hj. exact (Hat 1%nat dj Hj).
  - exact Hend.
Defined.

(** C3 (as stated) fails: the drain function of one render, called again
    after its first call resolved the queued operation and removed it from
    the store, dispatches that operation a second time. *)
Lemma same_drain_called_again_dispatches_resolved_operation :
  ¬ (∀ (process process' : OfflineOperation.t → bool) (render state : OfflineState)
       (d d' : Dispatch),
       isOnline render = true →
       d ∈ (processPendingOperations process render state).1 →
       resolved d = true →
       d' ∈ (processPendingOperations process' render
               (processPendingOperations process render state).2).1 →
       OfflineOperation.id (dispatched d') ≠ OfflineOperation.id (dispatched d)).
Proof.
  intros Hclaim.
  apply (Hclaim alwaysResolves alwaysResolves sampleStore sampleStore
           (mkDispatch sampleOperation true [sampleOperation])
           (mkDispatch sampleOperation true []));
    [reflexivity|vm_compute; left|reflexivity|vm_compute; left|reflexivity].
Qed.



Lemma runAction_isOnline (a : StoreAction) (state : OfflineState) :
  isOnline (runAction a state) ≠ isOnline state →
  ∃ online, a = ActSetOnlineStatus online.
Proof. destruct a; simpl; try done. eauto. Qed.

(** C6: [syncData] leaves [isOnline] as it was whatever the outcome of the
    resync, that is whatever the refetches and the awaited promise do, and
    when the awaited promise is rejected leaves the whole store as it was;
    of the store's actions only [setOnlineStatus] can change the flag, and
    the handlers of the online and offline events set it to true and to
    false. *)
Theorem resync_failure_keeps_connectivity
    (render state : OfflineState) (config : SyncConfig.t)
    (refetch : QueryKey → Refetch) (awaited : ApiResult unit)
    (error : string) (now : Z) (cache : QueryCache) :
  isOnline (syncData render config refetch awaited now state cache).1.1 = isOnline state
  ∧ (syncData render config refetch (Rejected error) now state cache).1.1 = state
  ∧ (∀ a s, isOnline (runAction a s) ≠ isOnline s →
       ∃ online, a = ActSetOnlineStatus online)
  ∧ (∀ process r s, isOnline (handleOnline process r s).2 = true)
  ∧ (∀ s, isOnline (handleOffline s) = false).
Proof.
  split_and!.
  - unfold syncData. case_match; [done|]. by destruct awaited.
  - unfold syncData. by case_match.
  - apply runAction_isOnline.
  - intros process r s. unfold handleOnline.
    by rewrite processPendingOperations_isOnline.
  - done.
Qed.

Lemma resync_failure_keeps_connectivity_witness :
  isOnline (syncData sampleStore defaultSyncConfig (λ _, RefetchRejected)
              (Rejected "Network Error") 1700000030000 sampleStore ∅).1.1 = true.
Proof.
  exact (proj1 (resync_failure_keeps_connectivity sampleStore sampleStore
    defaultSyncConfig (λ _, RefetchRejected) (Rejected "Network Error")
    "Network Error" 1700000030000 ∅)).
Defined.

(** ** Persistence *)

Lemma assignStored_isOnline (state : OfflineState) (kv : string * StoredValue) :
  kv.1 ≠ "isOnline" → isOnline (assignStored state kv) = isOnline state.
Proof.
  destruct kv as [key []]; simpl; intros Hkey; by repeat case_decide.
Qed.

Lemma mergePersisted_isOnline (persisted : list (string * StoredValue))
    (current : OfflineState) :
  "isOnline" ∉ (fst <$> persisted) →
  isOnline (mergePersisted persisted current) = isOnline current.
Proof.
  unfold mergePersisted. revert current.
  induction persisted as [|kv persisted IH]; intros current; [done|].
  rewrite fmap_cons, not_elem_of_cons. intros [Hkey Hrest]. simpl.
  rewrite IH by done. by apply assignStored_isOnline.
Qed.

Lemma partialize_no_isOnline (state : OfflineState) :
  "isOnline" ∉ (fst <$> partialize state).
Proof.
  simpl. rewrite !not_elem_of_cons. split_and!; try done. apply not_elem_of_nil.
Qed.

(** C10: the stored object has the four keys [pendingOperations],
    [cachedTasks], [cachedChatMessages], [lastSyncTimestamp] and no
    [isOnline]; a store created with any stored object that has no
    [isOnline] key, or with none, takes [isOnline] from [navigator.onLine],
    and one created with the object written from [state] recovers the four
    stored fields of [state]. *)
Theorem persisted_blob_leaves_out_isOnline
    (state : OfflineState) (navigator_onLine : bool)
    (persisted : list (string * StoredValue)) :
  fst <$> partialize state
  = ["pendingOperations"; "cachedTasks"; "cachedChatMessages"; "lastSyncTimestamp"]
  ∧ ("isOnline" ∉ (fst <$> partialize state))
  ∧ ("isOnline" ∉ (fst <$> persisted) →
     isOnline (rehydrate navigator_onLine (Some persisted)) = navigator_onLine)
  ∧ isOnline (rehydrate navigator_onLine None) = navigator_onLine
  ∧ rehydrate navigator_onLine (Some (partialize state))
    = setOnlineStatus navigator_onLine state.
Proof.
  split_and!.
  - done.
  - apply partialize_no_isOnline.
  - intros Hkey. simpl. by rewrite mergePersisted_isOnline.
  - done.
  - by destruct state.
Qed.

Lemma persisted_blob_leaves_out_isOnline_witness :
  isOnline (rehydrate false (Some (partialize sampleStore))) = false.
Proof.
  refine (proj1 (proj2 (proj2 (persisted_blob_leaves_out_isOnline
    sampleStore false (partialize sampleStore)))) _).
  apply partialize_no_isOnline.
Defined.

(** ** The toggle of App.tsx *)

Lemma taskStatusValues_complete (status : TaskStatus) : status ∈ taskStatusValues.
Proof.
  unfold taskStatusValues. rewrite !elem_of_cons. destruct status; auto.
Qed.

(** C9: the status enum has the three values PENDING, IN_PROGRESS and
    COMPLETED; the toggle sends COMPLETED to PENDING and the other two to
    COMPLETED, rewrites only the task with the given id, and like the update
    handler leaves every status among the three values. *)
Theorem toggle_complete_maps_within_three_statuses
    (iso : nat → string) (id : Z) (updates : TaskUpdate.t) (prev : list Task.t)
    (i : nat) (task : Task.t) :
  prev !! i = Some task →
  (∀ status : TaskStatus, status ∈ [PENDING; IN_PROGRESS; COMPLETED])
  ∧ toggledStatus COMPLETED = PENDING
  ∧ toggledStatus PENDING = COMPLETED
  ∧ toggledStatus IN_PROGRESS = COMPLETED
  ∧ length (handleToggleComplete iso id prev) = length prev
  ∧ (∃ task',
       handleToggleComplete iso id prev !! i = Some task'
       ∧ Task.status task' ∈ [PENDING; IN_PROGRESS; COMPLETED]
       ∧ (Task.id task = id →
            Task.status task' = toggledStatus (Task.status task)
            ∧ Task.id task' = Task.id task
            ∧ Task.title task' = Task.title task
            ∧ Task.updated_at task' = iso i)
       ∧ (Task.id task ≠ id → task' = task))
  ∧ (∀ task', task' ∈ handleUpdateTask iso id updates prev →
       Task.status task' ∈ [PENDING; IN_PROGRESS; COMPLETED]).
Proof.
  intros Hi. split_and!; try done.
  - apply taskStatusValues_complete.
  - unfold handleToggleComplete. apply length_imap.
  - unfold handleToggleComplete. rewrite list_lookup_imap, Hi. simpl.
    eexists. split; [reflexivity|]. split_and!.
    + apply taskStatusValues_complete.
    + intros Hid. by rewrite decide_True by done.
    + intros Hid. by rewrite decide_False by done.
  - intros task' _. apply taskStatusValues_complete.
Qed.

Lemma toggle_complete_maps_within_three_statuses_witness :
  ∃ task',
    handleToggleComplete sampleIso 7 [sampleTask] !! 0%nat = Some task'
    ∧ Task.status task' ∈ [PENDING; IN_PROGRESS; COMPLETED]
    ∧ (Task.id sampleTask = 7 →
         Task.status task' = toggledStatus (Task.status sampleTask)
         ∧ Task.id task' = Task.id sampleTask
         ∧ Task.title task' = Task.title sampleTask
         ∧ Task.updated_at task' = sampleIso 0%nat)
    ∧ (Task.id sampleTask ≠ 7 → task' = sampleTask).
Proof.
  exact (proj1 (proj2 (proj2 (proj2 (proj2 (proj2
    (toggle_complete_maps_within_three_statuses sampleIso 7 noUpdates [sampleTask]
       0%nat sampleTask eq_refl))))))).
Defined.

(** ** The query cache *)

Section CacheFacts.
Implicit Types (cache : QueryCache) (key : QueryKey) (filterKey : FilterKey)
  (query : Query).

Lemma lookup_setQueriesData filterKey updater now cache key :
  setQueriesData filterKey updater now cache !! key
  = (λ query,
       if matchQuery filterKey key then
         match updater key (data query) with
         | None => query
         | Some d => setData d (now key)
         end
       else query) <$> cache !! key.
Proof.
  unfold setQueriesData. rewrite map_lookup_imap.
  destruct (cache !! key) as [query|]; simpl; [|done]. by repeat case_match.
Qed.

Lemma lookup_invalidateQueries filterKey cache key :
  invalidateQueries filterKey cache !! key
  = (λ query, if matchQuery filterKey key then invalidate query else query)
      <$> cache !! key.
Proof.
  unfold invalidateQueries. rewrite map_lookup_imap.
  by destruct (cache !! key).
Qed.

Lemma lookup_removeQueries filterKey cache key :
  removeQueries filterKey cache !! key
  = if matchQuery filterKey key then None else cache !! key.
Proof.
  unfold removeQueries. rewrite map_lookup_filter.
  destruct (cache !! key) as [query|]; simpl.
  - destruct (matchQuery filterKey key) eqn:Hm.
    + by rewrite option_guard_False by (simpl; congruence).
    + by rewrite option_guard_True by done.
  - by destruct (matchQuery filterKey key).
Qed.

Lemma getQueryData_invalidateQueries filterKey cache key :
  getQueryData key (invalidateQueries filterKey cache) = getQueryData key cache.
Proof.
  unfold getQueryData. rewrite lookup_invalidateQueries.
  destruct (cache !! key) as [query|]; simpl; [|done]. by case_match.
Qed.

Lemma getQueryData_setQueryData key d now cache :
  getQueryData key (setQueryData key (λ _, Some d) now cache) = Some d.
Proof. unfold getQueryData, setQueryData. by rewrite lookup_insert_eq. Qed.

Lemma lookup_setQueryData_ne key key' updater now cache :
  key ≠ key' →
  setQueryData key updater now cache !! key' = cache !! key'.
Proof.
  intros Hne. unfold setQueryData. case_match; [|done]. by rewrite lookup_insert_ne.
Qed.

Lemma invalidate_idemp query : invalidate (invalidate query) = invalidate query.
Proof. done. Qed.

(** A key under [taskQueryKeys.lists()] is not a detail key. *)
Lemma lists_key_not_detail key id :
  matchQuery taskQueryKeys_lists key = true → key ≠ taskQueryKeys_detail id.
Proof.
  unfold matchQuery. intros Hm%bool_decide_eq_true_1 ->.
  destruct Hm as [rest Hrest]. discriminate.
Qed.

Lemma lists_match_list params :
  matchQuery taskQueryKeys_lists (taskQueryKeys_list params) = true.
Proof.
  apply bool_decide_eq_true_2. unfold taskQueryKeys_list. by apply prefix_app_r.
Qed.

Lemma lists_not_match_detail id :
  matchQuery taskQueryKeys_lists (taskQueryKeys_detail id) = false.
Proof. apply bool_decide_eq_false_2. intros [rest Hrest]. discriminate. Qed.

Lemma detail_match_detail id :
  matchQuery (taskQueryKeys_detail_filter id) (taskQueryKeys_detail id) = true.
Proof. by apply bool_decide_eq_true_2. Qed.

Lemma imap_ignore {A B : Type} (f : A → B) (l : list A) :
  imap (λ _ x, f x) l = f <$> l.
Proof. apply (imap_const f). Qed.

(** *** Rollback *)

Lemma getQueryData_update_rollback id cache key :
  getQueryData key (useUpdateTask_rollback id cache) = getQueryData key cache.
Proof.
  unfold useUpdateTask_rollback. by rewrite !getQueryData_invalidateQueries.
Qed.

Lemma lookup_update_rollback id cache key :
  useUpdateTask_rollback id cache !! key
  = (λ query,
       if matchQuery taskQueryKeys_lists key || matchQuery (taskQueryKeys_detail_filter id) key
       then invalidate query else query) <$> cache !! key.
Proof.
  unfold useUpdateTask_rollback. rewrite !lookup_invalidateQueries.
  destruct (cache !! key) as [query|]; simpl; [|done].
  by destruct (matchQuery taskQueryKeys_lists key),
    (matchQuery (taskQueryKeys_detail_filter id) key).
Qed.

Lemma applyOptimisticUpdate_rollback queryKey updater now now' cache previous :
  getQueryData queryKey cache = Some previous →
  getQueryData queryKey
    ((applyOptimisticUpdate queryKey updater None now cache).2 now'
       (applyOptimisticUpdate queryKey updater None now cache).1)
  = Some previous.
Proof.
  intros Hprev. unfold applyOptimisticUpdate. simpl. rewrite Hprev.
  apply getQueryData_setQueryData.
Qed.

Lemma applyOptimisticUpdate_rollback_absent queryKey updater now now' cache :
  getQueryData queryKey cache = None →
  getQueryData queryKey
    ((applyOptimisticUpdate queryKey updater None now cache).2 now'
       (applyOptimisticUpdate queryKey updater None now cache).1)
  = Some (updater None).
Proof.
  intros Hnone. unfold applyOptimisticUpdate. simpl. rewrite Hnone.
  unfold setQueryData. rewrite Hnone. unfold getQueryData.
  by rewrite lookup_insert_eq.
Qed.

End CacheFacts.

(** C1 (as the code has it): when the request of an optimistic update,
    completion or deletion is rejected, the mutation runs its rollback on
    the optimistically changed cache; that rollback leaves the data of every
    query as the optimistic step left it and flags as invalidated the
    queries under the lists key and, for update and completion, under the
    detail key of the task, leaving the other queries alone.  Only the
    default rollback of [applyOptimisticUpdate] writes the data captured
    before the change back at its key, when the key held data; when it held
    none, the optimistic data stay. *)
Theorem rollback_invalidates_keeping_optimistic_data
    (clock clock' : Clock) (id : Z) (updates : TaskUpdate.t) (error : string)
    (cache : QueryCache) (key queryKey : QueryKey)
    (updater : option QueryData → QueryData) (now now' : Z) (previous : QueryData) :
  (useUpdateTask clock clock' id updates (Rejected error) cache).1
  = useUpdateTask_rollback id (useUpdateTask_optimistic clock id updates cache)
  ∧ (useCompleteTask clock clock' id (Rejected error) cache).1
    = useCompleteTask_rollback id (useCompleteTask_optimistic clock id cache)
  ∧ (useDeleteTask clock id (Rejected error) cache).1
    = useDeleteTask_rollback (useDeleteTask_optimistic clock id cache)
  ∧ getQueryData key (useUpdateTask_rollback id cache) = getQueryData key cache
  ∧ getQueryData key (useCompleteTask_rollback id cache) = getQueryData key cache
  ∧ getQueryData key (useDeleteTask_rollback cache) = getQueryData key cache
  ∧ useUpdateTask_rollback id cache !! key
    = (λ query,
         if matchQuery taskQueryKeys_lists key
            || matchQuery (taskQueryKeys_detail_filter id) key
         then invalidate query else query) <$> cache !! key
  ∧ useCompleteTask_rollback id cache !! key
    = (λ query,
         if matchQuery taskQueryKeys_lists key
            || matchQuery (taskQueryKeys_detail_filter id) key
         then invalidate query else query) <$> cache !! key
  ∧ useDeleteTask_rollback cache !! key
    = (λ query,
         if matchQuery taskQueryKeys_lists key then invalidate query else query)
        <$> cache !! key
  ∧ (getQueryData queryKey cache = Some previous →
     getQueryData queryKey
       ((applyOptimisticUpdate queryKey updater None now cache).2 now'
          (applyOptimisticUpdate queryKey updater None now cache).1)
     = Some previous)
  ∧ (getQueryData queryKey cache = None →
     getQueryData queryKey
       ((applyOptimisticUpdate queryKey updater None now cache).2 now'
          (applyOptimisticUpdate queryKey updater None now cache).1)
     = Some (updater None)).
Proof.
  split_and!; try done.
  - apply getQueryData_update_rollback.
  - apply getQueryData_update_rollback.
  - apply getQueryData_invalidateQueries.
  - apply lookup_update_rollback.
  - apply lookup_update_rollback.
  - apply lookup_invalidateQueries.
  - apply applyOptimisticUpdate_rollback.
  - apply applyOptimisticUpdate_rollback_absent.
Qed.

Lemma rollback_invalidates_keeping_optimistic_data_witness :
  getQueryData (taskQueryKeys_detail 7)
    ((applyOptimisticUpdate (taskQueryKeys_detail 7) (λ _, DTask serverTask) None
        1704191400000 sampleCache).2 1704191401000
       (applyOptimisticUpdate (taskQueryKeys_detail 7) (λ _, DTask serverTask) None
          1704191400000 sampleCache).1)
  = Some (DTask sampleTask).
Proof.
  refine (proj1 (proj2 (proj2 (proj2 (proj2 (proj2 (proj2 (proj2 (proj2 (proj2
    (rollback_invalidates_keeping_optimistic_data sampleClock sampleClock 7
       (statusUpdate COMPLETED) "Network Error" sampleCache
       (taskQueryKeys_detail 7) (taskQueryKeys_detail 7) (λ _, DTask serverTask)
       1704191400000 1704191401000 (DTask sampleTask))))))))))) _).
  reflexivity.
Defined.

(** C1 (as stated) fails: after a rejected update or completion of task 7
    the detail query still holds the optimistic COMPLETED task, not the
    PENDING one it held before, and after a rejected deletion it holds
    nothing. *)
Lemma rollback_does_not_restore_snapshot :
  ¬ (∀ clock clock' id updates error cache key,
       getQueryData key (useUpdateTask clock clock' id updates (Rejected error) cache).1
       = getQueryData key cache)
  ∧ ¬ (∀ clock clock' id error cache key,
         getQueryData key (useCompleteTask clock clock' id (Rejected error) cache).1
         = getQueryData key cache)
  ∧ ¬ (∀ clock id error cache key,
         getQueryData key (useDeleteTask clock id (Rejected error) cache).1
         = getQueryData key cache).
Proof.
  split_and!; intros Hclaim.
  - specialize (Hclaim sampleClock sampleClock 7 (statusUpdate COMPLETED)
      "Network Error" sampleCache (taskQueryKeys_detail 7)).
    vm_compute in Hclaim. discriminate.
  - specialize (Hclaim sampleClock sampleClock 7 "Network Error" sampleCache
      (taskQueryKeys_detail 7)).
    vm_compute in Hclaim. discriminate.
  - specialize (Hclaim sampleClock 7 "Network Error" sampleCache
      (taskQueryKeys_detail 7)).
    vm_compute in Hclaim. discriminate.
Qed.

(** *** Writing the answer of the server *)

Section ServerAnswer.
Implicit Types (cache : QueryCache) (key : QueryKey).

Lemma writeServerTask_detail clock serverTask cache :
  getQueryData (taskQueryKeys_detail (Task.id serverTask))
    (writeServerTask clock serverTask cache)
  = Some (DTask serverTask).
Proof.
  unfold writeServerTask, getQueryData.
  rewrite lookup_setQueriesData, lists_not_match_detail.
  unfold setQueryData. by rewrite lookup_insert_eq.
Qed.

Lemma writeServerTask_list clock serverTask cache key page :
  matchQuery taskQueryKeys_lists key = true →
  getQueryData key cache = Some (DTaskPage page) →
  getQueryData key (writeServerTask clock serverTask cache)
  = Some (DTaskPage (withItems page
      ((λ task, if decide (Task.id task = Task.id serverTask) then serverTask else task)
         <$> PaginatedResponse.items page))).
Proof.
  intros Hm Hdata. unfold writeServerTask, getQueryData in *.
  rewrite lookup_setQueriesData, Hm.
  rewrite lookup_setQueryData_ne
    by (apply not_eq_sym; by apply lists_key_not_detail).
  destruct (cache !! key) as [query|]; simpl in *; [|done].
  rewrite Hdata. simpl. by rewrite imap_ignore.
Qed.

Lemma createTask_detail clock newTask cache :
  getQueryData (taskQueryKeys_detail (Task.id newTask))
    (useCreateTask_onSuccess clock newTask cache)
  = Some (DTask newTask).
Proof. unfold useCreateTask_onSuccess. apply getQueryData_setQueryData. Qed.

Lemma createTask_list clock newTask cache key :
  matchQuery taskQueryKeys_lists key = true →
  useCreateTask_onSuccess clock newTask cache !! key = invalidate <$> cache !! key.
Proof.
  intros Hm. unfold useCreateTask_onSuccess.
  rewrite lookup_setQueryData_ne
    by (apply not_eq_sym; by apply lists_key_not_detail).
  rewrite lookup_invalidateQueries. by rewrite Hm.
Qed.

End ServerAnswer.

(** C5 (as the code has it): a resolved update, completion or improvement
    writes the server's task [t] as the data of the detail query of [t.id]
    and in place of every item with that id in every cached task list, whole
    and leaving the other items as they were; a resolved creation writes [t]
    as the data of the detail query of [t.id] and only flags the cached task
    lists as invalidated, their data unchanged. *)
Theorem server_task_overwrites_detail_and_update_lists
    (clock clock' : Clock) (id : Z) (updates : TaskUpdate.t) (t : Task.t)
    (cache : QueryCache) (key : QueryKey) (page : PaginatedResponse.t Task.t) :
  matchQuery taskQueryKeys_lists key = true →
  ((useUpdateTask clock clock' id updates (Resolved t) cache).1
   = writeServerTask clock' t (useUpdateTask_optimistic clock id updates cache)
   ∧ (useCompleteTask clock clock' id (Resolved t) cache).1
     = writeServerTask clock' t (useCompleteTask_optimistic clock id cache)
   ∧ (useImproveTask clock' (Resolved t) cache).1 = writeServerTask clock' t cache
   ∧ (useCreateTask clock' (Resolved t) cache).1
     = useCreateTask_onSuccess clock' t cache)
  ∧ getQueryData (taskQueryKeys_detail (Task.id t)) (writeServerTask clock' t cache)
    = Some (DTask t)
  ∧ (getQueryData key cache = Some (DTaskPage page) →
     ∃ page',
       getQueryData key (writeServerTask clock' t cache) = Some (DTaskPage page')
       ∧ PaginatedResponse.items page'
         = (λ task, if decide (Task.id task = Task.id t) then t else task)
             <$> PaginatedResponse.items page
       ∧ (∀ task, task ∈ PaginatedResponse.items page' →
            Task.id task = Task.id t → task = t))
  ∧ getQueryData (taskQueryKeys_detail (Task.id t))
      (useCreateTask_onSuccess clock' t cache)
    = Some (DTask t)
  ∧ useCreateTask_onSuccess clock' t cache !! key = invalidate <$> cache !! key
  ∧ getQueryData key (useCreateTask_onSuccess clock' t cache) = getQueryData key cache.
Proof.
  intros Hm. split_and!; try done.
  - apply writeServerTask_detail.
  - intros Hdata. eexists. split; [by apply writeServerTask_list|].
    split; [done|]. simpl.
    intros task (task0 & -> & _)%list_elem_of_fmap. by case_decide.
  - apply createTask_detail.
  - by apply createTask_list.
  - unfold getQueryData. rewrite createTask_list by done.
    by destruct (cache !! key).
Qed.

Lemma server_task_overwrites_detail_and_update_lists_witness :
  getQueryData (taskQueryKeys_list sampleParams)
    (useCreateTask_onSuccess sampleClock serverTask sampleCache)
  = getQueryData (taskQueryKeys_list sampleParams) sampleCache.
Proof.
  exact (proj2 (proj2 (proj2 (proj2 (proj2
    (server_task_overwrites_detail_and_update_lists sampleClock sampleClock 7
       noUpdates serverTask sampleCache (taskQueryKeys_list sampleParams)
       (samplePage [sampleTask]) (lists_match_list sampleParams))))))).
Defined.

(** C5 (as stated) fails for a creation: with task 7 cached in a list, a
    creation answered with a task of id 7 leaves the list holding the cached
    task of that id, which is not the server's; the server's task is nowhere
    in the list. *)
Lemma created_task_not_written_to_lists :
  ¬ (∀ clock t cache key page task,
       matchQuery taskQueryKeys_lists key = true →
       getQueryData key (useCreateTask clock (Resolved t) cache).1
       = Some (DTaskPage page) →
       task ∈ PaginatedResponse.items page →
       Task.id task = Task.id t →
       task = t)
  ∧ ¬ (∀ clock t cache key page,
         matchQuery taskQueryKeys_lists key = true →
         getQueryData key (useCreateTask clock (Resolved t) cache).1
         = Some (DTaskPage page) →
         t ∈ PaginatedResponse.items page).
Proof.
  split; intros Hclaim.
  - specialize (Hclaim sampleClock serverTask sampleCache
      (taskQueryKeys_list sampleParams) (samplePage [sampleTask]) sampleTask
      (lists_match_list sampleParams) eq_refl).
    assert (sampleTask = serverTask) as Heq by (apply Hclaim; [left|done]).
    discriminate Heq.
  - specialize (Hclaim sampleClock serverTask sampleCache
      (taskQueryKeys_list sampleParams) (samplePage [sampleTask])
      (lists_match_list sampleParams) eq_refl).
    apply list_elem_of_singleton in Hclaim. discriminate Hclaim.
Qed.

(** *** The optimistic step *)

Section OptimisticStep.
Implicit Types (cache : QueryCache) (key : QueryKey).

Lemma getTask_Some key cache task :
  getTask key cache = Some task → getQueryData key cache = Some (DTask task).
Proof.
  unfold getTask. destruct (getQueryData key cache) as [[]|]; naive_solver.
Qed.

(** An optimistic update rewrites the task in every cached list. *)
Lemma useUpdateTask_optimistic_list clock id updates cache key page :
  matchQuery taskQueryKeys_lists key = true →
  getQueryData key cache = Some (DTaskPage page) →
  getQueryData key (useUpdateTask_optimistic clock id updates cache)
  = Some (DTaskPage (withItems page
      (imap (λ i task,
         if decide (Task.id task = id)
         then spreadUpdate task updates (iso_item clock key i) else task)
         (PaginatedResponse.items page)))).
Proof.
  intros Hm Hdata. unfold useUpdateTask_optimistic, getQueryData in *.
  rewrite lookup_setQueriesData, Hm.
  assert (Hne : taskQueryKeys_detail id ≠ key)
    by (apply not_eq_sym; by apply lists_key_not_detail).
  destruct (getTask (taskQueryKeys_detail id) cache);
    rewrite ?lookup_setQueryData_ne by done;
    (destruct (cache !! key) as [query|]; simpl in *; [|done]);
    by rewrite Hdata.
Qed.

(** And the detail query, when there is one. *)
Lemma useUpdateTask_optimistic_detail clock id updates cache previousTask :
  getTask (taskQueryKeys_detail id) cache = Some previousTask →
  getQueryData (taskQueryKeys_detail id)
    (useUpdateTask_optimistic clock id updates cache)
  = Some (DTask (spreadUpdate previousTask updates (iso_detail clock))).
Proof.
  intros Hprev. unfold useUpdateTask_optimistic, getQueryData. rewrite Hprev.
  rewrite lookup_setQueriesData, lists_not_match_detail.
  unfold setQueryData. by rewrite lookup_insert_eq.
Qed.

(** An optimistic completion does the same when the detail query holds the
    task. *)
Lemma useCompleteTask_optimistic_with_detail clock id cache previousTask key page :
  getTask (taskQueryKeys_detail id) cache = Some previousTask →
  getQueryData (taskQueryKeys_detail id) (useCompleteTask_optimistic clock id cache)
  = Some (DTask (markCompleted previousTask (iso_detail clock)))
  ∧ (matchQuery taskQueryKeys_lists key = true →
     getQueryData key cache = Some (DTaskPage page) →
     getQueryData key (useCompleteTask_optimistic clock id cache)
     = Some (DTaskPage (withItems page
         ((λ task, if decide (Task.id task = id)
                   then markCompleted previousTask (iso_detail clock) else task)
            <$> PaginatedResponse.items page)))).
Proof.
  intros Hprev. unfold useCompleteTask_optimistic, getQueryData. rewrite Hprev.
  split.
  - rewrite lookup_setQueriesData, lists_not_match_detail.
    unfold setQueryData. by rewrite lookup_insert_eq.
  - intros Hm Hdata. rewrite lookup_setQueriesData, Hm.
    rewrite lookup_setQueryData_ne
      by (apply not_eq_sym; by apply lists_key_not_detail).
    destruct (cache !! key) as [query|]; simpl in *; [|done].
    rewrite Hdata. simpl. by rewrite imap_ignore.
Qed.

(** Without a detail query, an optimistic completion changes nothing. *)
Lemma useCompleteTask_optimistic_without_detail clock id cache :
  getTask (taskQueryKeys_detail id) cache = None →
  useCompleteTask_optimistic clock id cache = cache.
Proof. intros Hnone. unfold useCompleteTask_optimistic. by rewrite Hnone. Qed.

End OptimisticStep.

(** C4, at the input where the code departs from it: task 7 is cached in a
    list and has no detail query.  The optimistic completion leaves the
    cache, and so the list, as it was, with the task still PENDING; the
    optimistic update to COMPLETED of the same task on the same cache
    rewrites the list item, status and [updated_at]. *)
Theorem complete_without_detail_leaves_lists_unchanged :
  getTask (taskQueryKeys_detail 7) listOnlyCache = None
  ∧ useCompleteTask_optimistic sampleClock 7 listOnlyCache = listOnlyCache
  ∧ getQueryData (taskQueryKeys_list sampleParams)
      (useCompleteTask_optimistic sampleClock 7 listOnlyCache)
    = Some (DTaskPage (samplePage [sampleTask]))
  ∧ getQueryData (taskQueryKeys_list sampleParams)
      (useUpdateTask_optimistic sampleClock 7 (statusUpdate COMPLETED) listOnlyCache)
    = Some (DTaskPage (samplePage [markCompleted sampleTask "2024-01-02T10:30:00.000Z"])).
Proof. split_and!; reflexivity. Qed.

(** *** Staleness *)

Lemma isStale_setData d t0 staleTime now :
  isStale (setData d t0) staleTime now = bool_decide (t0 + staleTime ≤ now).
Proof.
  unfold isStale. simpl. apply bool_decide_ext. lia.
Qed.

Lemma useQuery_after_fetch (options : UseQueryOptions) (d : QueryData) (t0 now : Z)
    (cache : QueryCache) :
  enabled options = true →
  useQuery options now (fetchResolved (queryKey options) d t0 cache)
  = if bool_decide (t0 + staleTime options ≤ now)
    then ServeStaleAndFetch d else ServeCached d.
Proof.
  intros Hen. unfold useQuery, fetchResolved. rewrite Hen, lookup_insert_eq.
  cbn [negb data setData]. by rewrite isStale_setData.
Qed.

(** C7: the task-list and single-task queries have a stale time of five
    minutes and the chat-message pages one of two minutes; a query mounted
    again less than that long after its data was fetched is served the
    cached data with no fetch, and one mounted later is served it while a
    fetch is started. *)
Theorem stale_times_and_reads_within_window
    (params : string) (id : Z) (d : QueryData) (t0 now : Z) (cache : QueryCache) :
  id ≠ 0 →
  staleTime (useTasks params) = 5 * 60 * 1000
  ∧ staleTime (useTask id) = 5 * 60 * 1000
  ∧ staleTime (useChatMessages params) = 2 * 60 * 1000
  ∧ (now - t0 < 5 * 60 * 1000 →
     useQuery (useTasks params) now
       (fetchResolved (taskQueryKeys_list params) d t0 cache) = ServeCached d
     ∧ useQuery (useTask id) now
         (fetchResolved (taskQueryKeys_detail id) d t0 cache) = ServeCached d)
  ∧ (now - t0 < 2 * 60 * 1000 →
     useQuery (useChatMessages params) now
       (fetchResolved (chatQueryKeys_messagesList params) d t0 cache) = ServeCached d)
  ∧ (5 * 60 * 1000 ≤ now - t0 →
     useQuery (useTasks params) now
       (fetchResolved (taskQueryKeys_list params) d t0 cache) = ServeStaleAndFetch d
     ∧ useQuery (useTask id) now
         (fetchResolved (taskQueryKeys_detail id) d t0 cache) = ServeStaleAndFetch d)
  ∧ (2 * 60 * 1000 ≤ now - t0 →
     useQuery (useChatMessages params) now
       (fetchResolved (chatQueryKeys_messagesList params) d t0 cache)
     = ServeStaleAndFetch d).
Proof.
  intros Hid.
  assert (Hen : enabled (useTask id) = true).
  { simpl. by rewrite bool_decide_eq_false_2. }
  pose proof (useQuery_after_fetch (useTasks params) d t0 now cache eq_refl) as Hlist.
  pose proof (useQuery_after_fetch (useTask id) d t0 now cache Hen) as Hdetail.
  pose proof (useQuery_after_fetch (useChatMessages params) d t0 now cache eq_refl)
    as Hchat.
  cbn [queryKey staleTime useTasks useTask useChatMessages] in Hlist, Hdetail, Hchat.
  split_and!; try done.
  - intros Hlt. rewrite Hlist, Hdetail. by rewrite bool_decide_eq_false_2 by lia.
  - intros Hlt. rewrite Hchat. by rewrite bool_decide_eq_false_2 by lia.
  - intros Hge. rewrite Hlist, Hdetail. by rewrite bool_decide_eq_true_2 by lia.
  - intros Hge. rewrite Hchat. by rewrite bool_decide_eq_true_2 by lia.
Qed.

Lemma stale_times_and_reads_within_window_witness :
  useQuery (useTasks sampleParams) (1704100000000 + 299999)
    (fetchResolved (taskQueryKeys_list sampleParams)
       (DTaskPage (samplePage [sampleTask])) 1704100000000 ∅)
  = ServeCached (DTaskPage (samplePage [sampleTask])).
Proof.
  refine (proj1 (proj1 (proj2 (proj2 (proj2
    (stale_times_and_reads_within_window sampleParams 7
       (DTaskPage (samplePage [sampleTask])) 1704100000000
       (1704100000000 + 299999) ∅ _)))) _)).
  - discriminate.
  - reflexivity.
Defined.

(** * Further properties of the offline store *)

Section StoreFrame.
Implicit Types (state render : OfflineState) (op : OfflineOperation.t).

Lemma set_pendingOperations_own state :
  set_pendingOperations (pendingOperations state) state = state.
Proof. by destruct state. Qed.

Lemma drainStep_only_queue process state op :
  drainStep process state op
  = set_pendingOperations (pendingOperations (drainStep process state op)) state.
Proof. unfold drainStep. by repeat case_match. Qed.

Lemma drainLoop_only_queue process operations state :
  (drainLoop process operations state).2
  = set_pendingOperations
      (pendingOperations (drainLoop process operations state).2) state.
Proof.
  revert state. induction operations as [|op rest IH]; intros state; simpl.
  - by rewrite set_pendingOperations_own.
  - specialize (IH (drainStep process state op)).
    destruct (drainLoop process rest _) as [log final]. simpl in *.
    rewrite IH at 1. by rewrite (drainStep_only_queue process state op).
Qed.

Lemma remove_absent_state id state :
  id ∉ queuedIds state → removePendingOperation id state = state.
Proof.
  intros Hid. unfold removePendingOperation.
  rewrite remove_absent by done. apply set_pendingOperations_own.
Qed.

Lemma increment_absent_state id state :
  id ∉ queuedIds state → incrementRetryCount id state = state.
Proof.
  intros Hid. unfold incrementRetryCount.
  rewrite increment_absent by done. apply set_pendingOperations_own.
Qed.

End StoreFrame.

(** X1: a drain run while online from a render of the current store, in
    which every dispatch resolves, leaves the queue empty, whatever the ids;
    with [processOperation] as the source has it this is every such drain. *)
Theorem resolving_drain_empties_queue
    (process : OfflineOperation.t → bool) (state : OfflineState) :
  isOnline state = true →
  (∀ op, op ∈ pendingOperations state → process op = true) →
  pendingOperations (drain process state) = []
  ∧ pendingOperations (drain processOperation state) = [].
Proof.
  intros Hon Hall. split.
  - by apply drain_all_resolved.
  - by apply drain_processOperation_empties.
Qed.

Lemma resolving_drain_empties_queue_witness :
  pendingOperations (drain alwaysResolves sampleStore) = []
  ∧ pendingOperations (drain processOperation sampleStore) = [].
Proof.
  apply (resolving_drain_empties_queue alwaysResolves sampleStore).
  - reflexivity.
  - intros op _. reflexivity.
Defined.

(** X2: the handler of the online event, when the component last rendered
    with the store offline, sets the flag and dispatches nothing: the drain
    it calls still sees [isOnline] false and returns at once, so the queue
    is left as it was. *)
Theorem handleOnline_after_offline_render_dispatches_nothing
    (process : OfflineOperation.t → bool) (render state : OfflineState) :
  isOnline render = false →
  handleOnline process render state = ([], setOnlineStatus true state)
  ∧ pendingOperations (handleOnline process render state).2 = pendingOperations state.
Proof.
  intros Hoff. unfold handleOnline, processPendingOperations. by rewrite Hoff.
Qed.

Lemma handleOnline_after_offline_render_dispatches_nothing_witness :
  handleOnline alwaysResolves offlineStore offlineStore
  = ([], setOnlineStatus true offlineStore)
  ∧ pendingOperations (handleOnline alwaysResolves offlineStore offlineStore).2
    = pendingOperations offlineStore.
Proof.
  apply (handleOnline_after_offline_render_dispatches_nothing
           alwaysResolves offlineStore offlineStore).
  reflexivity.
Defined.

Lemma omap_afterDrain process (ops : list OfflineOperation.t) :
  omap (afterDrain process) ops
  = bumpRetry <$>
      filter (λ op, process op = false ∧ OfflineOperation.retryCount op < 3) ops.
Proof.
  induction ops as [|op ops IH]; [done|].
  rewrite filter_cons. simpl. unfold afterDrain at 1.
  destruct (process op) eqn:Hp.
  - rewrite decide_False by (intros [? _]; done). exact IH.
  - destruct (decide (3 ≤ OfflineOperation.retryCount op)).
    + rewrite decide_False by (intros [_ ?]; lia). exact IH.
    + rewrite decide_True by (split; [done|lia]). rewrite fmap_cons. by f_equal.
Qed.

(** X3: after a drain run while online from a render of the current store,
    on a queue with distinct ids, the queue holds exactly the operations
    whose dispatch was rejected and whose retry counter was below 3, in
    their former order, each with its counter raised by one and nothing
    else changed. *)
Theorem drain_keeps_rejected_below_ceiling_in_order
    (process : OfflineOperation.t → bool) (state : OfflineState) :
  isOnline state = true →
  NoDup (queuedIds state) →
  pendingOperations (drain process state)
  = bumpRetry <$>
      filter (λ op, process op = false ∧ OfflineOperation.retryCount op < 3)
        (pendingOperations state).
Proof.
  intros Hon Hnd. rewrite drain_spec by done. apply omap_afterDrain.
Qed.

Lemma drain_keeps_rejected_below_ceiling_in_order_witness :
  pendingOperations (drain alwaysRejects sampleStore)
  = bumpRetry <$>
      filter (λ op, alwaysRejects op = false ∧ OfflineOperation.retryCount op < 3)
        (pendingOperations sampleStore).
Proof.
  apply (drain_keeps_rejected_below_ceiling_in_order alwaysRejects sampleStore).
  - reflexivity.
  - apply NoDup_singleton.
Defined.

(** X4: whatever the render it closes over and whatever the outcomes,
    [processPendingOperations] writes only the queue: the connectivity flag,
    the cached tasks, the cached messages and the sync timestamp are
    untouched, and the ids left in the queue are a subsequence of the ids
    that were there, so a drain neither adds nor reorders operations. *)
Theorem processPendingOperations_writes_only_the_queue
    (process : OfflineOperation.t → bool) (render state : OfflineState) :
  let final := (processPendingOperations process render state).2 in
  final = set_pendingOperations (pendingOperations final) state
  ∧ queuedIds final `sublist_of` queuedIds state
  ∧ (length (pendingOperations final) ≤ length (pendingOperations state))%nat.
Proof.
  intros final.
  assert (Hsub : queuedIds final `sublist_of` queuedIds state)
    by apply processPendingOperations_sublist.
  split_and!; [|done|].
  - subst final. unfold processPendingOperations. case_match; simpl.
    + by rewrite set_pendingOperations_own.
    + apply drainLoop_only_queue.
  - apply sublist_length in Hsub. unfold queuedIds in Hsub.
    by rewrite !length_fmap in Hsub.
Qed.

(** X5: removing the operation that [addPendingOperation] has just queued
    gives back the store as it was, provided the id drawn for it was not
    already queued. *)
Theorem remove_after_add_restores_store
    (type : OperationType) (data : string) (env : IdSource) (state : OfflineState) :
  pretty (now_for_id env) +:+ random_suffix env ∉ queuedIds state →
  removePendingOperation (pretty (now_for_id env) +:+ random_suffix env)
    (addPendingOperation type data env state)
  = state.
Proof.
  intros Hfresh. unfold removePendingOperation, addPendingOperation. simpl.
  rewrite filter_app, remove_absent by done.
  rewrite filter_cons_False by (by intros []).
  rewrite filter_nil, app_nil_r. by destruct state.
Qed.

Lemma remove_after_add_restores_store_witness :
  removePendingOperation
    (pretty (now_for_id sampleIdSource) +:+ random_suffix sampleIdSource)
    (addPendingOperation DELETE_TASK "{id:7}" sampleIdSource (initialState true))
  = initialState true.
Proof.
  apply (remove_after_add_restores_store DELETE_TASK "{id:7}" sampleIdSource
           (initialState true)).
  apply not_elem_of_nil.
Defined.

(** X6: [removePendingOperation] and [incrementRetryCount] called with an id
    that is not queued leave the store as it is, and removing an id leaves
    no operation with that id, so removing twice is removing once. *)
Theorem remove_and_increment_of_unknown_id
    (id : string) (state : OfflineState) :
  (id ∉ queuedIds state →
     removePendingOperation id state = state
     ∧ incrementRetryCount id state = state)
  ∧ (id ∉ queuedIds (removePendingOperation id state))
  ∧ removePendingOperation id (removePendingOperation id state)
    = removePendingOperation id state.
Proof.
  split_and!.
  - intros Hid. split; [by apply remove_absent_state|by apply increment_absent_state].
  - apply not_queued_after_remove.
  - apply remove_absent_state, not_queued_after_remove.
Qed.

Lemma remove_and_increment_of_unknown_id_witness :
  removePendingOperation "unknown" sampleStore = sampleStore
  ∧ incrementRetryCount "unknown" sampleStore = sampleStore.
Proof.
  apply (proj1 (remove_and_increment_of_unknown_id "unknown" sampleStore)).
  unfold queuedIds. simpl. rewrite list_elem_of_singleton. discriminate.
Defined.

(** X7: in the cached task list of the store, an update or a removal for
    an id no cached task has changes nothing, an update never changes the
    number of cached tasks, and removing the id of a task that was just
    added, when no other cached task has it, restores the store. *)
Theorem cached_tasks_unknown_id_and_round_trip
    (id : Z) (updates : PartialTask.t) (task : Task.t) (state : OfflineState) :
  (id ∉ Task.id <$> cachedTasks state →
     updateCachedTask id updates state = state
     ∧ removeCachedTask id state = state)
  ∧ length (cachedTasks (updateCachedTask id updates state))
    = length (cachedTasks state)
  ∧ (Task.id task ∉ Task.id <$> cachedTasks state →
     removeCachedTask (Task.id task) (addCachedTask task state) = state).
Proof.
  assert (Hfilter : ∀ (i : Z) (tasks : list Task.t),
            i ∉ Task.id <$> tasks → filter (λ t, Task.id t ≠ i) tasks = tasks).
  { intros i tasks. induction tasks as [|t tasks IH]; [done|].
    rewrite fmap_cons, not_elem_of_cons. intros [Hne Hnot].
    rewrite filter_cons_True by done. by rewrite IH. }
  assert (Hmap : ∀ (i : Z) (tasks : list Task.t),
            i ∉ Task.id <$> tasks →
            (λ t, if decide (Task.id t = i) then spreadPartial t updates else t)
              <$> tasks = tasks).
  { intros i tasks. induction tasks as [|t tasks IH]; [done|].
    rewrite !fmap_cons, not_elem_of_cons. intros [Hne Hnot].
    rewrite decide_False by done. by rewrite IH. }
  split_and!.
  - intros Hid. unfold updateCachedTask, removeCachedTask.
    rewrite Hmap, Hfilter by done. by destruct state.
  - unfold updateCachedTask. simpl. by rewrite length_fmap.
  - intros Hid. unfold removeCachedTask, addCachedTask. simpl.
    rewrite filter_app, Hfilter by done.
    rewrite filter_cons_False by (by intros []).
    rewrite filter_nil, app_nil_r. by destruct state.
Qed.

Lemma cached_tasks_unknown_id_and_round_trip_witness :
  removeCachedTask (Task.id sampleTask) (addCachedTask sampleTask sampleStore)
  = sampleStore.
Proof.
  apply (proj2 (proj2 (cached_tasks_unknown_id_and_round_trip 7
    (PartialTask.mk None None Absent Absent None Absent None None None Absent None)
    sampleTask sampleStore))).
  apply not_elem_of_nil.
Defined.

(** * Further properties of the task hooks *)

Section KeyFacts.

Lemma prefix_bool (filterKey : FilterKey) (key : QueryKey) (b : bool) :
  (if b then queryKeyOf filterKey `prefix_of` key
   else ¬ queryKeyOf filterKey `prefix_of` key) →
  matchQuery filterKey key = b.
Proof.
  destruct b; intros H;
    [by apply bool_decide_eq_true_2|by apply bool_decide_eq_false_2].
Qed.

Lemma lists_match_excludes_detail key id :
  matchQuery taskQueryKeys_lists key = true →
  matchQuery (taskQueryKeys_detail_filter id) key = false.
Proof.
  intros [rest ->]%bool_decide_eq_true_1.
  apply bool_decide_eq_false_2. intros [rest' Hrest']. discriminate.
Qed.

End KeyFacts.

(** X8: the task query keys nest as their factory builds them: a filter on
    [taskQueryKeys.all] matches every list, detail and analysis key, a
    filter on [lists()] matches every list key and no detail key, a filter
    on [detail(id)] matches the detail key of that id only, and task filters
    and chat filters never match each other's keys. *)
Theorem task_query_keys_nest (params : string) (id id' : Z) :
  matchQuery taskQueryKeys_all (taskQueryKeys_list params) = true
  ∧ matchQuery taskQueryKeys_all (taskQueryKeys_detail id) = true
  ∧ matchQuery taskQueryKeys_all (queryKeyOf taskQueryKeys_analysis ++ [KObj params])
    = true
  ∧ matchQuery taskQueryKeys_lists (taskQueryKeys_list params) = true
  ∧ matchQuery taskQueryKeys_lists (taskQueryKeys_detail id) = false
  ∧ matchQuery taskQueryKeys_details (taskQueryKeys_detail id) = true
  ∧ matchQuery (taskQueryKeys_detail_filter id) (taskQueryKeys_detail id')
    = bool_decide (id = id')
  ∧ matchQuery (taskQueryKeys_detail_filter id) (taskQueryKeys_list params) = false
  ∧ matchQuery taskQueryKeys_all (chatQueryKeys_messagesList params) = false
  ∧ matchQuery chatQueryKeys_all (taskQueryKeys_list params) = false
  ∧ matchQuery chatQueryKeys_all (taskQueryKeys_detail id) = false
  ∧ matchQuery chatQueryKeys_messages (chatQueryKeys_messagesList params) = true.
Proof.
  split_and!; apply prefix_bool; simpl;
    try (by eexists); try (by intros [rest Hrest]).
  case_bool_decide as Hid.
  - subst. by exists [].
  - intros [rest Hrest]. apply Hid. by injection Hrest.
Qed.

Section DataAfterHooks.
Implicit Types (cache : QueryCache) (key : QueryKey).

(** The data read after [setQueriesData] with an updater that returns
    nothing exactly when given nothing. *)
Lemma getQueryData_setQueriesData filterKey updater now cache key :
  updater key None = None →
  (∀ d, is_Some (updater key (Some d))) →
  getQueryData key (setQueriesData filterKey updater now cache)
  = if matchQuery filterKey key then updater key (getQueryData key cache)
    else getQueryData key cache.
Proof.
  intros Hnone Hsome. unfold getQueryData. rewrite lookup_setQueriesData.
  destruct (cache !! key) as [query|]; simpl.
  - destruct (matchQuery filterKey key); [|done].
    destruct (data query) as [d|] eqn:Hd.
    + destruct (Hsome d) as [d' Hd']. by rewrite Hd'.
    + by rewrite Hnone, Hd.
  - by destruct (matchQuery filterKey key).
Qed.

Lemma onTaskPage_None f : onTaskPage f None = None.
Proof. done. Qed.

Lemma onTaskPage_Some f d : is_Some (onTaskPage f (Some d)).
Proof. destruct d; simpl; eauto. Qed.

Lemma getQueryData_setQueryData_ne key key' updater now cache :
  key ≠ key' →
  getQueryData key' (setQueryData key updater now cache) = getQueryData key' cache.
Proof. intros Hne. unfold getQueryData. by rewrite lookup_setQueryData_ne. Qed.

Lemma getQueryData_writeServerTask clock t cache key :
  getQueryData key (writeServerTask clock t cache)
  = if decide (key = taskQueryKeys_detail (Task.id t)) then Some (DTask t)
    else if matchQuery taskQueryKeys_lists key then
      onTaskPage (λ _ task, if decide (Task.id task = Task.id t) then t else task)
        (getQueryData key cache)
    else getQueryData key cache.
Proof.
  case_decide as Hkey.
  - subst. apply writeServerTask_detail.
  - unfold writeServerTask.
    rewrite getQueryData_setQueriesData by auto using onTaskPage_Some.
    by rewrite getQueryData_setQueryData_ne.
Qed.

Lemma getQueryData_update_optimistic clock id updates cache key :
  getQueryData key (useUpdateTask_optimistic clock id updates cache)
  = if decide (key = taskQueryKeys_detail id) then
      match getTask (taskQueryKeys_detail id) cache with
      | Some previousTask =>
          Some (DTask (spreadUpdate previousTask updates (iso_detail clock)))
      | None => getQueryData key cache
      end
    else if matchQuery taskQueryKeys_lists key then
      onTaskPage (λ i task,
        if decide (Task.id task = id)
        then spreadUpdate task updates (iso_item clock key i) else task)
        (getQueryData key cache)
    else getQueryData key cache.
Proof.
  unfold useUpdateTask_optimistic.
  rewrite getQueryData_setQueriesData by auto using onTaskPage_Some.
  case_decide as Hkey.
  - subst. rewrite lists_not_match_detail.
    destruct (getTask _ cache); [|done]. apply getQueryData_setQueryData.
  - destruct (getTask _ cache); [|done].
    by rewrite getQueryData_setQueryData_ne.
Qed.

Lemma getQueryData_complete_optimistic clock id cache key :
  getQueryData key (useCompleteTask_optimistic clock id cache)
  = match getTask (taskQueryKeys_detail id) cache with
    | Some previousTask =>
        if decide (key = taskQueryKeys_detail id) then
          Some (DTask (markCompleted previousTask (iso_detail clock)))
        else if matchQuery taskQueryKeys_lists key then
          onTaskPage (λ _ task,
            if decide (Task.id task = id)
            then markCompleted previousTask (iso_detail clock) else task)
            (getQueryData key cache)
        else getQueryData key cache
    | None => getQueryData key cache
    end.
Proof.
  unfold useCompleteTask_optimistic.
  destruct (getTask _ cache) as [previousTask|]; [|done].
  rewrite getQueryData_setQueriesData by auto using onTaskPage_Some.
  case_decide as Hkey.
  - subst. rewrite lists_not_match_detail. apply getQueryData_setQueryData.
  - by rewrite getQueryData_setQueryData_ne.
Qed.

Lemma getQueryData_removeQueries filterKey cache key :
  getQueryData key (removeQueries filterKey cache)
  = if matchQuery filterKey key then None else getQueryData key cache.
Proof.
  unfold getQueryData. rewrite lookup_removeQueries.
  by destruct (matchQuery filterKey key).
Qed.

(** Replacing by the server's task the items that carry its id absorbs an
    earlier rewrite of those same items that kept their ids. *)
Lemma server_items_absorb (t : Task.t) (f : nat → Task.t → Task.t)
    (items : list Task.t) :
  (∀ i task, Task.id (f i task) = Task.id task) →
  (∀ i task, Task.id task ≠ Task.id t → f i task = task) →
  (λ task, if decide (Task.id task = Task.id t) then t else task) <$> imap f items
  = (λ task, if decide (Task.id task = Task.id t) then t else task) <$> items.
Proof.
  intros Hid Hother. revert f Hid Hother.
  induction items as [|task items IH]; intros f Hid Hother; [done|].
  simpl. rewrite Hid. f_equal.
  - case_decide; [done|]. by apply Hother.
  - apply IH; intros i task'; [apply Hid|apply Hother].
Qed.

Lemma onTaskPage_absorb (t : Task.t) (f : nat → Task.t → Task.t)
    (old : option QueryData) :
  (∀ i task, Task.id (f i task) = Task.id task) →
  (∀ i task, Task.id task ≠ Task.id t → f i task = task) →
  onTaskPage (λ _ task, if decide (Task.id task = Task.id t) then t else task)
    (onTaskPage f old)
  = onTaskPage (λ _ task, if decide (Task.id task = Task.id t) then t else task) old.
Proof.
  intros Hid Hother. destruct old as [[| page |]|]; try done. simpl.
  rewrite !imap_ignore. cbn [PaginatedResponse.items withItems].
  rewrite server_items_absorb by done. done.
Qed.

End DataAfterHooks.

(** X9: when an update is answered with a task whose id is the id updated,
    every query ends with the data it would have had if the server's task
    had been written on the cache as it was before the optimistic step: the
    optimistic values, clock readings included, leave no trace. *)
Theorem resolved_update_leaves_no_trace_of_the_guess
    (clock clock' : Clock) (id : Z) (updates : TaskUpdate.t) (t : Task.t)
    (cache : QueryCache) (key : QueryKey) :
  Task.id t = id →
  getQueryData key (useUpdateTask clock clock' id updates (Resolved t) cache).1
  = getQueryData key (writeServerTask clock' t cache).
Proof.
  intros <-.
  change (useUpdateTask clock clock' (Task.id t) updates (Resolved t) cache).1
    with (writeServerTask clock' t
            (useUpdateTask_optimistic clock (Task.id t) updates cache)).
  rewrite !getQueryData_writeServerTask.
  case_decide as Hkey; [done|].
  rewrite getQueryData_update_optimistic. rewrite decide_False by done.
  destruct (matchQuery taskQueryKeys_lists key); [|done].
  apply onTaskPage_absorb.
  - intros i task. by case_decide.
  - intros i task Hne. by rewrite decide_False.
Qed.

Lemma resolved_update_leaves_no_trace_of_the_guess_witness :
  getQueryData (taskQueryKeys_list sampleParams)
    (useUpdateTask sampleClock sampleClock 7 (statusUpdate IN_PROGRESS)
       (Resolved serverTask) sampleCache).1
  = getQueryData (taskQueryKeys_list sampleParams)
      (writeServerTask sampleClock serverTask sampleCache).
Proof.
  apply (resolved_update_leaves_no_trace_of_the_guess sampleClock sampleClock 7
           (statusUpdate IN_PROGRESS) serverTask sampleCache).
  reflexivity.
Defined.

(** X10: the same holds for a completion answered with a task of the id
    completed, provided the task found under the detail key of that id,
    if any, carries that id. *)
Theorem resolved_completion_leaves_no_trace_of_the_guess
    (clock clock' : Clock) (id : Z) (t : Task.t)
    (cache : QueryCache) (key : QueryKey) :
  Task.id t = id →
  (∀ previousTask, getTask (taskQueryKeys_detail id) cache = Some previousTask →
     Task.id previousTask = id) →
  getQueryData key (useCompleteTask clock clock' id (Resolved t) cache).1
  = getQueryData key (writeServerTask clock' t cache).
Proof.
  intros <- Hprev.
  change (useCompleteTask clock clock' (Task.id t) (Resolved t) cache).1
    with (writeServerTask clock' t
            (useCompleteTask_optimistic clock (Task.id t) cache)).
  rewrite !getQueryData_writeServerTask.
  case_decide as Hkey; [done|].
  rewrite getQueryData_complete_optimistic.
  destruct (getTask _ cache) as [previousTask|] eqn:Hget; [|done].
  rewrite decide_False by done.
  destruct (matchQuery taskQueryKeys_lists key); [|done].
  apply onTaskPage_absorb.
  - intros i task. case_decide as Hid; [|done]. simpl. rewrite Hid. by apply Hprev.
  - intros i task Hne. by rewrite decide_False.
Qed.

Lemma resolved_completion_leaves_no_trace_of_the_guess_witness :
  getQueryData (taskQueryKeys_list sampleParams)
    (useCompleteTask sampleClock sampleClock 7 (Resolved serverTask) sampleCache).1
  = getQueryData (taskQueryKeys_list sampleParams)
      (writeServerTask sampleClock serverTask sampleCache).
Proof.
  apply (resolved_completion_leaves_no_trace_of_the_guess sampleClock sampleClock 7
           serverTask sampleCache).
  - reflexivity.
  - intros previousTask Hget. vm_compute in Hget. by injection Hget as <-.
Defined.

(** X11: writing the same server task a second time, at whatever clock
    readings, changes the data of no query. *)
Theorem writing_server_task_twice_is_once
    (clock1 clock2 : Clock) (t : Task.t) (cache : QueryCache) (key : QueryKey) :
  getQueryData key (writeServerTask clock2 t (writeServerTask clock1 t cache))
  = getQueryData key (writeServerTask clock1 t cache).
Proof.
  rewrite !getQueryData_writeServerTask.
  case_decide as Hkey; [done|].
  destruct (matchQuery taskQueryKeys_lists key); [|done].
  apply (onTaskPage_absorb t
    (λ _ task, if decide (Task.id task = Task.id t) then t else task)).
  - intros i task. by case_decide.
  - intros i task Hne. by rewrite decide_False.
Qed.

(** X12: the optimistic step of a deletion removes the detail query of the
    task, and in every cached task page drops the items with the task's id,
    keeps the others in order and lowers [total] by one, also when the page
    held no such item; queries that are neither task lists nor under the
    detail key are untouched, and a resolved deletion leaves the cache as
    the optimistic step left it. *)
Theorem optimistic_delete_drops_items_and_lowers_total
    (clock : Clock) (id : Z) (cache : QueryCache) (key : QueryKey)
    (page : PaginatedResponse.t Task.t) :
  getQueryData (taskQueryKeys_detail id) (useDeleteTask_optimistic clock id cache)
  = None
  ∧ (matchQuery taskQueryKeys_lists key = true →
     getQueryData key cache = Some (DTaskPage page) →
     getQueryData key (useDeleteTask_optimistic clock id cache)
     = Some (DTaskPage
         (withItemsTotal page
            (filter (λ task, Task.id task ≠ id) (PaginatedResponse.items page))
            (PaginatedResponse.total page - 1)))
     ∧ (id ∉ Task.id <$> PaginatedResponse.items page →
        getQueryData key (useDeleteTask_optimistic clock id cache)
        = Some (DTaskPage
            (withItemsTotal page (PaginatedResponse.items page)
               (PaginatedResponse.total page - 1)))))
  ∧ (matchQuery taskQueryKeys_lists key = false →
     matchQuery (taskQueryKeys_detail_filter id) key = false →
     useDeleteTask_optimistic clock id cache !! key = cache !! key)
  ∧ (useDeleteTask clock id (Resolved ()) cache).1
    = useDeleteTask_optimistic clock id cache.
Proof.
  assert (Hupd_none : ∀ k : QueryKey,
    (λ (_ : QueryKey) (old : option QueryData),
       match old with
       | Some (DTaskPage page) =>
           Some (DTaskPage
             (withItemsTotal page
                (filter (λ task, Task.id task ≠ id) (PaginatedResponse.items page))
                (PaginatedResponse.total page - 1)))
       | other => other
       end) k None = None) by done.
  split_and!.
  - unfold useDeleteTask_optimistic. rewrite getQueryData_removeQueries.
    by rewrite detail_match_detail.
  - intros Hm Hdata.
    assert (Hread :
      getQueryData key (useDeleteTask_optimistic clock id cache)
      = Some (DTaskPage
          (withItemsTotal page
             (filter (λ task, Task.id task ≠ id) (PaginatedResponse.items page))
             (PaginatedResponse.total page - 1)))).
    { unfold useDeleteTask_optimistic. rewrite getQueryData_removeQueries.
      rewrite lists_match_excludes_detail by done.
      rewrite getQueryData_setQueriesData; [by rewrite Hm, Hdata|done|].
      intros [| |]; eauto. }
    split; [exact Hread|]. intros Hid. rewrite Hread. do 3 f_equal.
    clear -Hid. induction (PaginatedResponse.items page) as [|task items IH]; [done|].
    rewrite fmap_cons, not_elem_of_cons in Hid. destruct Hid as [Hne Hid].
    rewrite filter_cons_True by done. by rewrite IH.
  - intros Hm Hd. unfold useDeleteTask_optimistic.
    rewrite lookup_removeQueries, Hd, lookup_setQueriesData, Hm.
    by destruct (cache !! key).
  - done.
Qed.

Lemma optimistic_delete_drops_items_and_lowers_total_witness :
  getQueryData (taskQueryKeys_list sampleParams)
    (useDeleteTask_optimistic sampleClock 8 sampleCache)
  = Some (DTaskPage
      (withItemsTotal (samplePage [sampleTask])
         (PaginatedResponse.items (samplePage [sampleTask]))
         (PaginatedResponse.total (samplePage [sampleTask]) - 1))).
Proof.
  refine (proj2 (proj1 (proj2 (optimistic_delete_drops_items_and_lowers_total
    sampleClock 8 sampleCache (taskQueryKeys_list sampleParams)
    (samplePage [sampleTask]))) (lists_match_list sampleParams) eq_refl) _).
  simpl. rewrite list_elem_of_singleton. discriminate.
Defined.

(** X13: the optimistic step of an update touches only the task lists and
    the detail query of the task; it creates no detail query where there
    was none, and in a cached task page it keeps the ids of the items in
    place, the paging fields, and every item of another id. *)
Theorem optimistic_update_touches_only_the_task
    (clock : Clock) (id : Z) (updates : TaskUpdate.t) (cache : QueryCache)
    (key : QueryKey) (page : PaginatedResponse.t Task.t) :
  (matchQuery taskQueryKeys_lists key = false →
   key ≠ taskQueryKeys_detail id →
   useUpdateTask_optimistic clock id updates cache !! key = cache !! key)
  ∧ (cache !! taskQueryKeys_detail id = None →
     useUpdateTask_optimistic clock id updates cache !! taskQueryKeys_detail id
     = None)
  ∧ (matchQuery taskQueryKeys_lists key = true →
     getQueryData key cache = Some (DTaskPage page) →
     ∃ page',
       getQueryData key (useUpdateTask_optimistic clock id updates cache)
       = Some (DTaskPage page')
       ∧ Task.id <$> PaginatedResponse.items page'
         = Task.id <$> PaginatedResponse.items page
       ∧ PaginatedResponse.total page' = PaginatedResponse.total page
       ∧ PaginatedResponse.page page' = PaginatedResponse.page page
       ∧ PaginatedResponse.size page' = PaginatedResponse.size page
       ∧ PaginatedResponse.pages page' = PaginatedResponse.pages page
       ∧ (∀ i task, PaginatedResponse.items page !! i = Some task →
            Task.id task ≠ id →
            PaginatedResponse.items page' !! i = Some task)).
Proof.
  split_and!.
  - intros Hm Hkey. unfold useUpdateTask_optimistic.
    rewrite lookup_setQueriesData, Hm.
    destruct (getTask _ cache).
    + rewrite lookup_setQueryData_ne by done. by destruct (cache !! key).
    + by destruct (cache !! key).
  - intros Hnone. unfold useUpdateTask_optimistic, getTask, getQueryData.
    rewrite Hnone. simpl. by rewrite lookup_setQueriesData, Hnone.
  - intros Hm Hdata. eexists. split.
    { by apply useUpdateTask_optimistic_list. }
    cbn [PaginatedResponse.items PaginatedResponse.total PaginatedResponse.page
         PaginatedResponse.size PaginatedResponse.pages withItems].
    split_and!; try done.
    + apply list_eq. intros i. rewrite !list_lookup_fmap, list_lookup_imap.
      destruct (PaginatedResponse.items page !! i) as [task|]; [|done]. simpl.
      by case_decide.
    + intros i task Hi Hne. rewrite list_lookup_imap, Hi. simpl.
      by rewrite decide_False.
Qed.

Lemma optimistic_update_touches_only_the_task_witness :
  useUpdateTask_optimistic sampleClock 8 (statusUpdate COMPLETED) sampleCache
    !! taskQueryKeys_detail 8 = None.
Proof.
  apply (proj1 (proj2 (optimistic_update_touches_only_the_task sampleClock 8
    (statusUpdate COMPLETED) sampleCache (taskQueryKeys_detail 8)
    (samplePage [])))).
  reflexivity.
Defined.

(** * Further properties of the sync hooks *)

(** X14: when the background sync fires (the hook rendered online with a
    non-empty queue) it raises exactly one notification, "Sync Complete"
    with the length of the queue it rendered with, whatever the outcomes of
    the dispatches, and leaves the store as the drain leaves it; when every
    dispatch was rejected below the retry ceiling the queue is as long as
    before. *)
Theorem background_sync_always_reports_complete
    (process : OfflineOperation.t → bool) (render state : OfflineState) :
  isOnline render = true →
  pendingOperations render ≠ [] →
  backgroundSync process render state
  = ([NotifySuccess "Sync Complete"
        (pretty (length (pendingOperations render))
           +:+ " pending changes have been synced.")],
     (processPendingOperations process render state).2)
  ∧ (render = state →
     NoDup (queuedIds state) →
     (∀ op, op ∈ pendingOperations state →
        process op = false ∧ OfflineOperation.retryCount op < 3) →
     length (pendingOperations (backgroundSync process render state).2)
     = length (pendingOperations state)).
Proof.
  intros Hon Hne.
  assert (Hlen : (0 < length (pendingOperations render))%nat).
  { destruct (pendingOperations render); [done|simpl; lia]. }
  assert (Heq : backgroundSync process render state
    = ([NotifySuccess "Sync Complete"
          (pretty (length (pendingOperations render))
             +:+ " pending changes have been synced.")],
       (processPendingOperations process render state).2)).
  { unfold backgroundSync, backgroundSyncArmed, syncPending.
    rewrite Hon, bool_decide_eq_true_2 by done. simpl.
    by destruct (processPendingOperations process render state). }
  split; [exact Heq|].
  intros -> Hnd Hall. rewrite Heq. simpl.
  change ((processPendingOperations process state state).2)
    with (drain process state).
  rewrite drain_spec, omap_afterDrain by done.
  rewrite length_fmap. f_equal.
  clear -Hall. induction (pendingOperations state) as [|op ops IH]; [done|].
  rewrite filter_cons_True by (apply Hall; left).
  f_equal. apply IH. intros o Ho. apply Hall. by right.
Qed.

Lemma background_sync_always_reports_complete_witness :
  backgroundSync alwaysRejects sampleStore sampleStore
  = ([NotifySuccess "Sync Complete"
        (pretty (length (pendingOperations sampleStore))
           +:+ " pending changes have been synced.")],
     (processPendingOperations alwaysRejects sampleStore sampleStore).2).
Proof.
  apply (background_sync_always_reports_complete alwaysRejects sampleStore
           sampleStore); [reflexivity|discriminate].
Defined.

Lemma lookup_invalidateQueriesAwaited (filterKey : FilterKey)
    (refetch : QueryKey → Refetch) (cache : QueryCache) (key : QueryKey) :
  invalidateQueriesAwaited filterKey refetch cache !! key
  = (λ query, if matchQuery filterKey key then settleRefetch (refetch key) query
              else query) <$> cache !! key.
Proof.
  unfold invalidateQueriesAwaited. rewrite map_lookup_imap.
  by destruct (cache !! key).
Qed.

Lemma lookup_syncData (render state : OfflineState) (config : SyncConfig.t)
    (refetch : QueryKey → Refetch) (awaited : ApiResult unit) (now : Z)
    (cache : QueryCache) (key : QueryKey) :
  isOnline render && SyncConfig.enabled config = true →
  (syncData render config refetch awaited now state cache).1.2 !! key
  = (λ query, if matchQuery taskQueryKeys_lists key
              then settleRefetch (refetch key) query else query) <$> cache !! key.
Proof.
  intros [Hon Hen]%andb_true_iff. unfold syncData. rewrite Hon, Hen. simpl.
  destruct awaited; simpl; apply lookup_invalidateQueriesAwaited.
Qed.

(** X15: [syncData] never touches the queue or the cached tasks and messages
    of the store nor any query outside the task lists (the chat and detail
    queries keep their data and flags), and does nothing at all when the
    hook rendered offline or disabled.  Otherwise a list query whose refetch
    resolved holds the fetched data, stamped and not flagged, and a list
    query that was not refetched or whose refetch was rejected keeps its
    data and is flagged; when the awaited promise resolves, which it does
    also when refetches were rejected, [now] is recorded as the last sync
    and nothing is reported, and when it is rejected the store is left as it
    was and the error is logged and reported once. *)
Theorem syncData_effects
    (render state : OfflineState) (config : SyncConfig.t)
    (refetch : QueryKey → Refetch) (awaited : ApiResult unit)
    (error : string) (now : Z) (cache : QueryCache) (key : QueryKey) :
  let result := syncData render config refetch awaited now state cache in
  (matchQuery taskQueryKeys_lists key = false → result.1.2 !! key = cache !! key)
  ∧ pendingOperations result.1.1 = pendingOperations state
  ∧ cachedTasks result.1.1 = cachedTasks state
  ∧ cachedChatMessages result.1.1 = cachedChatMessages state
  ∧ (isOnline render && SyncConfig.enabled config = false →
     result = (state, cache, []))
  ∧ (isOnline render && SyncConfig.enabled config = true →
     (∀ d at_, matchQuery taskQueryKeys_lists key = true →
        refetch key = RefetchResolved d at_ →
        result.1.2 !! key = (λ _, setData d at_) <$> cache !! key)
     ∧ (matchQuery taskQueryKeys_lists key = true →
        refetch key = NotRefetched ∨ refetch key = RefetchRejected →
        result.1.2 !! key = invalidate <$> cache !! key
        ∧ getQueryData key result.1.2 = getQueryData key cache)
     ∧ (syncData render config refetch (Resolved ()) now state cache).1.1
       = setLastSyncTimestamp now state
     ∧ (syncData render config refetch (Resolved ()) now state cache).2 = []
     ∧ (syncData render config refetch (Rejected error) now state cache).1.1 = state
     ∧ (syncData render config refetch (Rejected error) now state cache).2
       = [ ConsoleError "Sync failed:" error;
           if SyncConfig.onError config then CallOnError error
           else NotifyWarning "Sync Failed"
                  "Unable to sync data. Your changes are saved locally." "Retry" ]).
Proof.
  intros result.
  destruct (isOnline render && SyncConfig.enabled config) eqn:Hgate.
  - pose proof (lookup_syncData render state config refetch awaited now cache key
                  Hgate) as Hlookup.
    fold result in Hlookup.
    apply andb_true_iff in Hgate as [Hon Hen].
    split_and!; try done.
    + intros Hm. rewrite Hlookup, Hm. by destruct (cache !! key).
    + subst result. unfold syncData. rewrite Hon, Hen. by destruct awaited.
    + subst result. unfold syncData. rewrite Hon, Hen. by destruct awaited.
    + subst result. unfold syncData. rewrite Hon, Hen. by destruct awaited.
    + intros _. split_and!.
      * intros d at_ Hm Hre. by rewrite Hlookup, Hm, Hre.
      * intros Hm Hre.
        assert (Hq : result.1.2 !! key = invalidate <$> cache !! key).
        { rewrite Hlookup, Hm. by destruct Hre as [-> | ->]. }
        split; [done|]. unfold getQueryData. rewrite Hq.
        by destruct (cache !! key).
      * unfold syncData. by rewrite Hon, Hen.
      * unfold syncData. by rewrite Hon, Hen.
      * unfold syncData. by rewrite Hon, Hen.
      * unfold syncData. by rewrite Hon, Hen.
  - assert (Hresult : result = (state, cache, [])).
    { subst result. unfold syncData.
      apply andb_false_iff in Hgate as [-> | ->]; simpl; [done|].
      by rewrite orb_true_r. }
    rewrite Hresult. by split_and!.
Qed.

Lemma syncData_effects_witness :
  let result := syncData sampleStore defaultSyncConfig (λ _, RefetchRejected)
                  (Resolved ()) 1704191400000 sampleStore sampleCache in
  result.1.2 !! taskQueryKeys_list sampleParams
  = invalidate <$> sampleCache !! taskQueryKeys_list sampleParams
  ∧ result.1.1 = setLastSyncTimestamp 1704191400000 sampleStore.
Proof.
  destruct (syncData_effects sampleStore sampleStore defaultSyncConfig
    (λ _, RefetchRejected) (Resolved ()) "Network Error" 1704191400000 sampleCache
    (taskQueryKeys_list sampleParams)) as (_ & _ & _ & _ & _ & Hon).
  destruct (Hon eq_refl) as (_ & Hkept & Hstamp & _).
  split.
  - exact (proj1 (Hkept (lists_match_list sampleParams) (or_intror eq_refl))).
  - exact Hstamp.
Defined.

(** * Properties of the chat hooks *)

Section ChatFacts.
Implicit Types (cache : QueryCache) (key : QueryKey).

Lemma getChatPage_Some key cache page :
  getChatPage key cache = Some page → getQueryData key cache = Some (DChatPage page).
Proof.
  unfold getChatPage. destruct (getQueryData key cache) as [[]|]; naive_solver.
Qed.

Lemma addUserMessage_read content clock cache :
  getQueryData (chatQueryKeys_messagesList (pageSizeParams 1 50))
    (addUserMessage content clock cache).2
  = prependMessage (addUserMessage content clock cache).1
      (getQueryData (chatQueryKeys_messagesList (pageSizeParams 1 50)) cache).
Proof.
  unfold addUserMessage. cbn [fst snd]. unfold setQueryData.
  destruct (prependMessage _ _) as [d|] eqn:Hd.
  - unfold getQueryData at 1. by rewrite lookup_insert_eq.
  - destruct (getQueryData _ cache) as [[]|]; discriminate.
Qed.

End ChatFacts.

(** X16: [addUserMessage] returns a USER message with the given content and
    writes it under the chat key of page 1, size 50 only: where that key
    has no data a first page holding just the message is made; where it has
    a page the message is put before the cached messages and [total] is
    raised by one, the other paging fields staying as they were; every
    other query is untouched. *)
Theorem addUserMessage_prepends_to_first_page
    (content : string) (clock : MessageClock) (cache : QueryCache)
    (key : QueryKey) (page : PaginatedResponse.t ChatMessage.t) :
  let key0 := chatQueryKeys_messagesList (pageSizeParams 1 50) in
  let userMessage := (addUserMessage content clock cache).1 in
  let cache' := (addUserMessage content clock cache).2 in
  ChatMessage.content userMessage = content
  ∧ ChatMessage.role userMessage = USER
  ∧ (getQueryData key0 cache = None →
     getChatPage key0 cache'
     = Some {| PaginatedResponse.items := [userMessage];
               PaginatedResponse.total := 1;
               PaginatedResponse.page := 1;
               PaginatedResponse.size := 50;
               PaginatedResponse.pages := 1 |})
  ∧ (getChatPage key0 cache = Some page →
     getChatPage key0 cache'
     = Some {| PaginatedResponse.items := userMessage :: PaginatedResponse.items page;
               PaginatedResponse.total := PaginatedResponse.total page + 1;
               PaginatedResponse.page := PaginatedResponse.page page;
               PaginatedResponse.size := PaginatedResponse.size page;
               PaginatedResponse.pages := PaginatedResponse.pages page |})
  ∧ (key ≠ key0 → cache' !! key = cache !! key).
Proof.
  intros key0 userMessage cache'. split_and!; try done.
  - intros Hnone. unfold getChatPage. subst cache' key0.
    by rewrite addUserMessage_read, Hnone.
  - intros Hpage%getChatPage_Some. unfold getChatPage. subst cache' key0.
    by rewrite addUserMessage_read, Hpage.
  - intros Hkey. subst cache'. unfold addUserMessage. cbn [snd].
    by apply lookup_setQueryData_ne.
Qed.

Lemma addUserMessage_prepends_to_first_page_witness :
  getChatPage (chatQueryKeys_messagesList (pageSizeParams 1 50))
    (addUserMessage "Plan a birthday party" sampleMessageClock ∅).2
  = Some {| PaginatedResponse.items :=
              [(addUserMessage "Plan a birthday party" sampleMessageClock ∅).1];
            PaginatedResponse.total := 1;
            PaginatedResponse.page := 1;
            PaginatedResponse.size := 50;
            PaginatedResponse.pages := 1 |}.
Proof.
  destruct (addUserMessage_prepends_to_first_page "Plan a birthday party"
    sampleMessageClock ∅ [] (PaginatedResponse.mk [] 0 1 50 0))
    as (_ & _ & Hfirst & _).
  exact (Hfirst eq_refl).
Defined.

(** X17: [sendPrompt] ends with the loading flag lowered and returns the
    outcome of the request, whatever it is; when the request is rejected
    the cache is left as [addUserMessage] left it, so the user's message
    stays without rollback and nothing is invalidated; when it resolves the
    chat message queries are flagged as invalidated and their data, the
    user's message included, stay. *)
Theorem sendPrompt_keeps_message_and_lowers_flag
    (prompt : string) (clock : MessageClock) (response : ApiResult ChatResponse.t)
    (answer : ChatResponse.t) (error : string)
    (cache : QueryCache) (loading : bool) (key : QueryKey) :
  let added := (addUserMessage prompt clock cache).2 in
  (sendPrompt prompt clock response (cache, loading)).1.2 = false
  ∧ (sendPrompt prompt clock response (cache, loading)).2 = response
  ∧ getQueryData key (sendPrompt prompt clock response (cache, loading)).1.1
    = getQueryData key added
  ∧ (sendPrompt prompt clock (Rejected error) (cache, loading)).1.1 = added
  ∧ (sendPrompt prompt clock (Resolved answer) (cache, loading)).1.1
    = invalidateQueries chatQueryKeys_messages added
  ∧ (sendPrompt prompt clock (Resolved answer) (cache, loading)).1.1
      !! chatQueryKeys_messagesList (pageSizeParams 1 50)
    = invalidate <$> added !! chatQueryKeys_messagesList (pageSizeParams 1 50).
Proof.
  intros added. subst added. unfold sendPrompt, useGenerateTasks, useMutation.
  cbn [fst snd]. destruct (addUserMessage prompt clock cache) as [msg cache1].
  cbn [fst snd]. split_and!; try done.
  - by destruct response.
  - by destruct response.
  - destruct response; cbn [fst snd]; [|done].
    apply getQueryData_invalidateQueries.
  - rewrite lookup_invalidateQueries.
    by rewrite (prefix_bool _ _ true) by (by eexists).
Qed.

(** * Properties of App.tsx and of the task list view *)

(** X18: toggling a task twice gives back its status only if it was PENDING
    or COMPLETED: an IN_PROGRESS task is COMPLETED after one toggle and
    PENDING after two.  In the task list, after two toggles of the same id
    the task at each position with that id is COMPLETED if it was COMPLETED
    and PENDING otherwise, stamped by the second toggle. *)
Theorem toggling_twice_loses_in_progress
    (iso1 iso2 : nat → string) (id : Z) (prev : list Task.t)
    (i : nat) (task : Task.t) :
  prev !! i = Some task →
  Task.id task = id →
  (∀ status, toggledStatus (toggledStatus status) = status ↔ status ≠ IN_PROGRESS)
  ∧ toggledStatus (toggledStatus IN_PROGRESS) = PENDING
  ∧ ∃ task'',
      handleToggleComplete iso2 id (handleToggleComplete iso1 id prev) !! i
      = Some task''
      ∧ Task.status task''
        = (if decide (Task.status task = COMPLETED) then COMPLETED else PENDING)
      ∧ Task.updated_at task'' = iso2 i
      ∧ Task.id task'' = id.
Proof.
  intros Hi <-. split_and!.
  - intros []; vm_compute; split; intros H; try done; by destruct H.
  - done.
  - unfold handleToggleComplete. rewrite !list_lookup_imap, Hi. simpl.
    destruct (decide (Task.id task = Task.id task)); [|done]. simpl.
    rewrite decide_True by done.
    eexists. split; [reflexivity|]. simpl. split_and!; try done.
    by destruct (Task.status task).
Qed.

Lemma toggling_twice_loses_in_progress_witness :
  ∃ task'',
    handleToggleComplete sampleIso 7 (handleToggleComplete sampleIso 7 [sampleTask])
      !! 0%nat = Some task''
    ∧ Task.status task''
      = (if decide (Task.status sampleTask = COMPLETED) then COMPLETED else PENDING)
    ∧ Task.updated_at task'' = sampleIso 0%nat
    ∧ Task.id task'' = 7.
Proof.
  exact (proj2 (proj2 (toggling_twice_loses_in_progress sampleIso sampleIso 7
    [sampleTask] 0%nat sampleTask eq_refl eq_refl))).
Defined.

(** X19: in the task list of App.tsx, deleting the id of a task that was
    just created gives back the list as it was when no other task has that
    id, and an update, a toggle or a deletion for an id no task has leaves
    the list as it is. *)
Theorem app_task_list_unknown_id_and_round_trip
    (clock : CreateClock) (taskData : TaskCreate.t) (iso : nat → string)
    (id : Z) (updates : TaskUpdate.t) (prev : list Task.t) :
  (now_for_task_id clock ∉ Task.id <$> prev →
     handleDeleteTask (now_for_task_id clock) (handleCreateTask clock taskData prev)
     = prev)
  ∧ (id ∉ Task.id <$> prev →
     handleUpdateTask iso id updates prev = prev
     ∧ handleToggleComplete iso id prev = prev
     ∧ handleDeleteTask id prev = prev).
Proof.
  assert (Hfilter : ∀ (i : Z) (tasks : list Task.t),
            i ∉ Task.id <$> tasks → filter (λ t, Task.id t ≠ i) tasks = tasks).
  { intros i tasks. induction tasks as [|t tasks IH]; [done|].
    rewrite fmap_cons, not_elem_of_cons. intros [Hne Hnot].
    rewrite filter_cons_True by done. by rewrite IH. }
  assert (Himap : ∀ (f : nat → Task.t → Task.t) (tasks : list Task.t),
            (∀ k t, t ∈ tasks → f k t = t) → imap f tasks = tasks).
  { intros f tasks. revert f. induction tasks as [|t tasks IH]; intros f Hf; [done|].
    simpl. rewrite Hf by left. f_equal. apply IH. intros k t' Ht'. apply Hf. by right. }
  split.
  - intros Hfresh. unfold handleDeleteTask, handleCreateTask.
    rewrite filter_cons_False by (by intros []). by apply Hfilter.
  - intros Hid. split_and!.
    + apply Himap. intros k t Ht. rewrite decide_False; [done|].
      intros <-. apply Hid, list_elem_of_fmap. eauto.
    + apply Himap. intros k t Ht. rewrite decide_False; [done|].
      intros <-. apply Hid, list_elem_of_fmap. eauto.
    + by apply Hfilter.
Qed.

Lemma app_task_list_unknown_id_and_round_trip_witness :
  handleDeleteTask 1704191400000
    (handleCreateTask (mkCreateClock 1704191400000 "2024-01-02T10:30:00.000Z"
                         "2024-01-02T10:30:00.001Z")
       (TaskCreate.mk "Order the cake" None None HIGH None None) [sampleTask])
  = [sampleTask].
Proof.
  apply (proj1 (app_task_list_unknown_id_and_round_trip
    (mkCreateClock 1704191400000 "2024-01-02T10:30:00.000Z"
       "2024-01-02T10:30:00.001Z")
    (TaskCreate.mk "Order the cake" None None HIGH None None) sampleIso 0
    noUpdates [sampleTask])).
  simpl. rewrite list_elem_of_singleton. discriminate.
Defined.

Section Pagination.
Context {A : Type}.
Implicit Types (tasks : list A) (p : Z).

Lemma paginatedTasks_take_drop p tasks :
  1 ≤ p →
  paginatedTasks p tasks = take 10 (drop (Z.to_nat ((p - 1) * 10)) tasks).
Proof.
  intros Hp. unfold paginatedTasks, slice, ITEMS_PER_PAGE.
  set (n := Z.to_nat ((p - 1) * 10)).
  assert (Hfrom : sliceIndex (length tasks) ((p - 1) * 10) = Nat.min n (length tasks)).
  { unfold sliceIndex. by rewrite decide_False by lia. }
  assert (Hto : sliceIndex (length tasks) (p * 10) = Nat.min (n + 10) (length tasks)).
  { unfold sliceIndex. rewrite decide_False by lia. subst n. f_equal. lia. }
  rewrite Hfrom, Hto.
  destruct (decide (length tasks ≤ n)%nat) as [Hge|Hlt].
  - rewrite !Nat.min_r by lia. rewrite Nat.sub_diag.
    rewrite (drop_ge tasks n) by done. by rewrite take_nil.
  - rewrite (Nat.min_l n) by lia.
    destruct (decide (n + 10 ≤ length tasks)%nat).
    + rewrite Nat.min_l by lia. f_equal. lia.
    + rewrite Nat.min_r by lia.
      rewrite !take_ge; [done| |]; rewrite length_drop; lia.
Qed.

Lemma pages_up_to k tasks :
  mjoin ((λ q : nat, paginatedTasks (Z.of_nat q) tasks) <$> seq 1 k)
  = take (k * 10) tasks.
Proof.
  induction k as [|k IH]; [done|].
  rewrite seq_S, fmap_app, join_app, IH.
  change (S k * 10)%nat with (10 + k * 10)%nat.
  cbn [fmap list_fmap mjoin list_join]. rewrite app_nil_r.
  rewrite paginatedTasks_take_drop by lia.
  replace (Z.to_nat ((Z.of_nat (1 + k) - 1) * 10)) with (k * 10)%nat by lia.
  rewrite take_take_drop. f_equal. lia.
Qed.

Lemma totalPages_bounds tasks :
  10 * totalPages tasks - 9 ≤ Z.of_nat (length tasks) ≤ 10 * totalPages tasks.
Proof.
  unfold totalPages, ITEMS_PER_PAGE.
  pose proof (Z.div_mod (Z.of_nat (length tasks) + 10 - 1) 10 ltac:(lia)).
  pose proof (Z.mod_pos_bound (Z.of_nat (length tasks) + 10 - 1) 10 ltac:(lia)).
  lia.
Qed.

(** X20: the pages of the task list view partition the list: pages 1 to
    [totalPages] joined in order give the list back; no page has more than
    10 items; a page from 1 to [totalPages] is not empty, and a page beyond
    [totalPages], where the view is left when the list has shrunk, is
    empty; the previous and next buttons keep the page within 1 and
    [totalPages]. *)
Theorem pagination_partitions_the_list tasks p :
  mjoin ((λ q : nat, paginatedTasks (Z.of_nat q) tasks)
           <$> seq 1 (Z.to_nat (totalPages tasks)))
  = tasks
  ∧ (length (paginatedTasks p tasks) ≤ 10)%nat
  ∧ (1 ≤ p ≤ totalPages tasks → paginatedTasks p tasks ≠ [])
  ∧ (1 ≤ p → totalPages tasks < p → paginatedTasks p tasks = [])
  ∧ (1 ≤ p ≤ totalPages tasks →
     1 ≤ previousPage p ≤ totalPages tasks
     ∧ 1 ≤ nextPage (totalPages tasks) p ≤ totalPages tasks).
Proof.
  pose proof (totalPages_bounds tasks) as Hb.
  split_and!.
  - rewrite pages_up_to. apply take_ge. lia.
  - unfold paginatedTasks, slice, sliceIndex, ITEMS_PER_PAGE.
    rewrite length_take. repeat case_decide; lia.
  - intros Hp. rewrite paginatedTasks_take_drop by lia.
    intros Hnil%(f_equal length). rewrite length_take, length_drop in Hnil.
    cbn [length] in Hnil. lia.
  - intros Hp Hlt. rewrite paginatedTasks_take_drop by lia.
    rewrite drop_ge by lia. apply take_nil.
  - unfold previousPage, nextPage. lia.
Qed.

End Pagination.

Lemma pagination_partitions_the_list_witness :
  paginatedTasks 2 [sampleTask] = [].
Proof.
  destruct (pagination_partitions_the_list [sampleTask] 2) as (_ & _ & _ & Hpast & _).
  apply Hpast; [lia|reflexivity].
Defined.

(** * Properties of useCaching *)

Section Caching.
Implicit Types (cache : QueryCache) (key : QueryKey) (tasks : list Task.t).

Lemma detail_key_inj id id' :
  taskQueryKeys_detail id = taskQueryKeys_detail id' → id = id'.
Proof. intros H. by injection H. Qed.

Lemma writeDetails_other now i tasks cache key :
  (∀ task, task ∈ tasks → key ≠ taskQueryKeys_detail (Task.id task)) →
  writeDetails now i tasks cache !! key = cache !! key.
Proof.
  revert i cache. induction tasks as [|task rest IH]; intros i cache Hkey; [done|].
  simpl. rewrite IH by (intros t Ht; apply Hkey; by right).
  apply lookup_setQueryData_ne, not_eq_sym, Hkey. left.
Qed.

Lemma writeDetails_read now i tasks cache task :
  NoDup (Task.id <$> tasks) →
  task ∈ tasks →
  getTask (taskQueryKeys_detail (Task.id task)) (writeDetails now i tasks cache)
  = Some task.
Proof.
  revert i cache. induction tasks as [|t rest IH]; intros i cache Hnd Hin.
  - by apply elem_of_nil in Hin.
  - rewrite fmap_cons, NoDup_cons in Hnd. destruct Hnd as [Hfresh Hnd].
    apply elem_of_cons in Hin as [->|Hin]; simpl.
    + unfold getTask, getQueryData. rewrite writeDetails_other.
      * unfold setQueryData. by rewrite lookup_insert_eq.
      * intros t' Ht' Heq%detail_key_inj. apply Hfresh.
        rewrite Heq. apply list_elem_of_fmap. eauto.
    + by apply IH.
Qed.

Lemma slice_from_zero {A : Type} (finish : Z) (l : list A) :
  slice 0 finish l
  = if decide (finish < 0) then take (length l - Z.to_nat (- finish)) l
    else take (Z.to_nat finish) l.
Proof.
  unfold slice, sliceIndex. rewrite (decide_False (P := 0 < 0)) by lia.
  change (Z.to_nat 0) with 0%nat. rewrite Nat.min_0_l, drop_0, Nat.sub_0_r.
  case_decide.
  - f_equal. lia.
  - destruct (decide (Z.to_nat finish ≤ length l)%nat).
    + by rewrite Nat.min_l.
    + rewrite Nat.min_r by lia. by rewrite !take_ge by lia.
Qed.

End Caching.

(** X21: [cacheTasksData] does nothing when offline persistence is off.
    Otherwise the store keeps the first [maxSize] tasks (for a negative
    [maxSize], all but the last [-maxSize]), while the query cache gets
    every task, also those past the limit: when the ids are distinct each
    task is read back under its detail key, and the queries under other
    keys are untouched. *)
Theorem cacheTasksData_limits_store_not_cache
    (config : PartialCacheConfig.t) (now : nat → Z) (tasks : list Task.t)
    (state : OfflineState) (cache : QueryCache) (key : QueryKey) (task : Task.t) :
  let final := finalConfig config in
  let result := cacheTasksData config now tasks state cache in
  (CacheConfig.persistOffline final = false → result = (state, cache))
  ∧ (CacheConfig.persistOffline final = true →
     (0 ≤ CacheConfig.maxSize final →
        cachedTasks result.1 = take (Z.to_nat (CacheConfig.maxSize final)) tasks
        ∧ Z.of_nat (length (cachedTasks result.1)) ≤ CacheConfig.maxSize final)
     ∧ (CacheConfig.maxSize final < 0 →
        cachedTasks result.1
        = take (length tasks - Z.to_nat (- CacheConfig.maxSize final)) tasks)
     ∧ (NoDup (Task.id <$> tasks) → task ∈ tasks →
        getTask (taskQueryKeys_detail (Task.id task)) result.2 = Some task)
     ∧ ((∀ t, t ∈ tasks → key ≠ taskQueryKeys_detail (Task.id t)) →
        result.2 !! key = cache !! key)
     ∧ pendingOperations result.1 = pendingOperations state
     ∧ isOnline result.1 = isOnline state).
Proof.
  intros final result. subst result final. unfold cacheTasksData.
  destruct (CacheConfig.persistOffline (finalConfig config)); simpl.
  - split; [done|]. intros _. rewrite slice_from_zero. split_and!; try done.
    + intros Hsize. rewrite decide_False by lia. split; [done|].
      rewrite length_take. lia.
    + intros Hsize. by rewrite decide_True by lia.
    + apply writeDetails_read.
    + apply writeDetails_other.
  - split; [done|]. intros ?. done.
Qed.

Lemma cacheTasksData_limits_store_not_cache_witness :
  cachedTasks
    (cacheTasksData (PartialCacheConfig.mk None (Some 0) None) (λ _, 1704191400000)
       [sampleTask] sampleStore ∅).1 = []
  ∧ getTask (taskQueryKeys_detail (Task.id sampleTask))
      (cacheTasksData (PartialCacheConfig.mk None (Some 0) None) (λ _, 1704191400000)
         [sampleTask] sampleStore ∅).2
    = Some sampleTask.
Proof.
  destruct (cacheTasksData_limits_store_not_cache
    (PartialCacheConfig.mk None (Some 0) None) (λ _, 1704191400000)
    [sampleTask] sampleStore ∅ [] sampleTask) as [_ Hon].
  destruct (Hon eq_refl) as (Hcap & _ & Hread & _).
  split.
  - apply Hcap. simpl. lia.
  - apply Hread; [apply NoDup_singleton|left].
Defined.

(** * Properties of the ICS export *)

Section Escaping.
Implicit Types (text s : string) (a c : ascii).

Lemma append_cons a s1 s2 : String a s1 +:+ s2 = String a (s1 +:+ s2).
Proof. reflexivity. Qed.

Lemma append_assoc s1 s2 s3 : (s1 +:+ s2) +:+ s3 = s1 +:+ s2 +:+ s3.
Proof.
  induction s1 as [|a s1 IH]; [done|]. rewrite !append_cons. by rewrite IH.
Qed.

Lemma replaceAll_app c rep s1 s2 :
  replaceAll c rep (s1 +:+ s2) = replaceAll c rep s1 +:+ replaceAll c rep s2.
Proof.
  induction s1 as [|a s1 IH]; [reflexivity|].
  rewrite append_cons. cbn [replaceAll].
  case_decide; rewrite IH; [|reflexivity]. symmetry. apply append_assoc.
Qed.

(** The five replacements, without the test for the empty text. *)
Lemma escapeICSText_unfold text :
  escapeICSText text
  = replaceAll carriageReturn "\r"
      (replaceAll lineFeed "\n"
         (replaceAll ","%char "\,"
            (replaceAll ";"%char "\;"
               (replaceAll backslash "\\" text)))).
Proof. unfold escapeICSText. case_decide; [by subst|done]. Qed.

Lemma replaceAll_cons_ne c rep a s :
  a ≠ c → replaceAll c rep (String a s) = String a (replaceAll c rep s).
Proof. intros Hne. cbn [replaceAll]. by rewrite decide_False. Qed.

(** The replacements act on each character on its own: none of them matches
    a character that an earlier one has written. *)
Lemma escapeICSText_cons a text :
  escapeICSText (String a text) = escapedChar a +:+ escapeICSText text.
Proof.
  rewrite !escapeICSText_unfold. unfold escapedChar.
  change (String a text) with (String a "" +:+ text).
  rewrite !replaceAll_app. f_equal.
  destruct (decide (a = backslash)) as [->|Hb]; [reflexivity|].
  destruct (decide (a = ";"%char)) as [->|Hs]; [reflexivity|].
  destruct (decide (a = ","%char)) as [->|Hc]; [reflexivity|].
  destruct (decide (a = lineFeed)) as [->|Hl]; [reflexivity|].
  destruct (decide (a = carriageReturn)) as [->|Hr]; [reflexivity|].
  by rewrite !replaceAll_cons_ne.
Qed.

Lemma unescape_escapedChar a s :
  unescapeICSText (escapedChar a +:+ s) = String a (unescapeICSText s).
Proof.
  unfold escapedChar.
  destruct (decide (a = backslash)) as [->|Hb]; [reflexivity|].
  destruct (decide (a = ";"%char)) as [->|Hs]; [reflexivity|].
  destruct (decide (a = ","%char)) as [->|Hc]; [reflexivity|].
  destruct (decide (a = lineFeed)) as [->|Hl]; [reflexivity|].
  destruct (decide (a = carriageReturn)) as [->|Hr]; [reflexivity|].
  rewrite append_cons. cbn [unescapeICSText]. by rewrite decide_False.
Qed.

Lemma unescape_escape text : unescapeICSText (escapeICSText text) = text.
Proof.
  induction text as [|a text IH]; [done|].
  by rewrite escapeICSText_cons, unescape_escapedChar, IH.
Qed.

Lemma list_ascii_app s1 s2 :
  String.list_ascii_of_string (s1 +:+ s2)
  = String.list_ascii_of_string s1 ++ String.list_ascii_of_string s2.
Proof.
  induction s1 as [|a s1 IH]; [reflexivity|].
  rewrite append_cons. cbn [String.list_ascii_of_string]. by rewrite IH.
Qed.

Lemma escapedChar_no_line_break a c :
  c ∈ String.list_ascii_of_string (escapedChar a) → c ≠ lineFeed ∧ c ≠ carriageReturn.
Proof.
  unfold escapedChar.
  destruct (decide (a = backslash)) as [->|Hb];
    [|destruct (decide (a = ";"%char)) as [->|Hs];
      [|destruct (decide (a = ","%char)) as [->|Hc];
        [|destruct (decide (a = lineFeed)) as [->|Hl];
          [|destruct (decide (a = carriageReturn)) as [->|Hr]]]]];
    simpl; rewrite ?elem_of_cons, ?elem_of_nil; intros H;
    repeat (destruct H as [->|H]); try done; by destruct H.
Qed.

Lemma escapedChar_plain a :
  a ∉ [backslash; ";"%char; ","%char; lineFeed; carriageReturn] →
  escapedChar a = String a "".
Proof.
  rewrite !not_elem_of_cons. intros (? & ? & ? & ? & ? & _).
  unfold escapedChar. by rewrite !decide_False.
Qed.

End Escaping.

(** X23: the escaping of the ICS export loses nothing and breaks no line:
    two texts with the same escaped form are the same text, the escaped
    form holds no line feed and no carriage return, so each property of the
    calendar file stays on one line, and a text without backslash,
    semicolon, comma or line break is left as it is. *)
Theorem escapeICSText_is_injective_and_single_line (text text' : string) (c : ascii) :
  (escapeICSText text = escapeICSText text' → text = text')
  ∧ (c ∈ String.list_ascii_of_string (escapeICSText text) →
     c ≠ lineFeed ∧ c ≠ carriageReturn)
  ∧ ((∀ a, a ∈ String.list_ascii_of_string text →
        a ∉ [backslash; ";"%char; ","%char; lineFeed; carriageReturn]) →
     escapeICSText text = text).
Proof.
  split_and!.
  - intros Heq. by rewrite <- (unescape_escape text), Heq, unescape_escape.
  - induction text as [|a text IH]; [by intros ?%elem_of_nil|].
    rewrite escapeICSText_cons, list_ascii_app, elem_of_app.
    intros [Hc|Hc]; [by eapply escapedChar_no_line_break|by apply IH].
  - induction text as [|a text IH]; [done|]. intros Hplain.
    rewrite escapeICSText_cons, escapedChar_plain by (apply Hplain; left).
    rewrite append_cons. f_equal.
    change ("" +:+ escapeICSText text) with (escapeICSText text).
    apply IH. intros b Hb. apply Hplain. by right.
Qed.

Lemma escapeICSText_is_injective_and_single_line_witness :
  escapeICSText "Call Dr. Smith" = "Call Dr. Smith".
Proof.
  apply (proj2 (proj2 (escapeICSText_is_injective_and_single_line
    "Call Dr. Smith" "" "a"%char))).
  intros a Ha. simpl in Ha.
  repeat (apply elem_of_cons in Ha as [->|Ha];
          [rewrite !not_elem_of_cons; split_and!; try done; apply not_elem_of_nil|]).
  by apply elem_of_nil in Ha.
Defined.

(** * How the hooks compose *)

Lemma useQuery_invalidated (options : UseQueryOptions) (now : Z)
    (cache : QueryCache) (query : Query) (d : QueryData) :
  enabled options = true →
  cache !! queryKey options = Some query →
  data query = Some d →
  isInvalidated query = true →
  useQuery options now cache = ServeStaleAndFetch d.
Proof.
  intros Hen Hq Hd Hinv. unfold useQuery. rewrite Hen, Hq, Hd. simpl.
  unfold isStale. by rewrite Hinv.
Qed.

Lemma getQueryData_lookup (cache : QueryCache) (key : QueryKey) (d : QueryData) :
  getQueryData key cache = Some d →
  ∃ query, cache !! key = Some query ∧ data query = Some d.
Proof.
  unfold getQueryData. destruct (cache !! key) as [query|]; [|done]. eauto.
Qed.

(** X24: after a resync run online and enabled, a task list that had data
    and was not refetched by it (no component showing it) or whose refetch
    was rejected is served stale and refetched by the next [useTasks],
    however recently it was fetched; a list whose refetch resolved is served
    from the cache, with the fetched data, for the next five minutes; what a
    single-task query reads is not affected. *)
Theorem resync_refreshes_observed_lists_and_flags_the_others
    (render state : OfflineState) (config : SyncConfig.t)
    (refetch : QueryKey → Refetch) (awaited : ApiResult unit)
    (now later : Z) (cache : QueryCache)
    (params : string) (id : Z) (d : QueryData) :
  isOnline render = true →
  SyncConfig.enabled config = true →
  getQueryData (taskQueryKeys_list params) cache = Some d →
  let after := (syncData render config refetch awaited now state cache).1.2 in
  (refetch (taskQueryKeys_list params) = NotRefetched
   ∨ refetch (taskQueryKeys_list params) = RefetchRejected →
   useQuery (useTasks params) later after = ServeStaleAndFetch d)
  ∧ (∀ d' at_,
       refetch (taskQueryKeys_list params) = RefetchResolved d' at_ →
       useQuery (useTasks params) later after
       = if bool_decide (at_ + 5 * 60 * 1000 ≤ later) then ServeStaleAndFetch d'
         else ServeCached d')
  ∧ useQuery (useTask id) later after = useQuery (useTask id) later cache.
Proof.
  intros Hon Hen (query & Hq & Hd)%getQueryData_lookup after.
  assert (Hgate : isOnline render && SyncConfig.enabled config = true).
  { by rewrite Hon, Hen. }
  pose proof (λ key, lookup_syncData render state config refetch awaited now cache
                       key Hgate) as Hlookup.
  fold after in Hlookup. split_and!.
  - intros Hre.
    apply (useQuery_invalidated _ _ _ (invalidate query)); try done.
    simpl. rewrite Hlookup, lists_match_list, Hq. by destruct Hre as [-> | ->].
  - intros d' at_ Hre. unfold useQuery. simpl.
    rewrite Hlookup, lists_match_list, Hq, Hre. simpl. unfold isStale. simpl.
    repeat case_bool_decide; try done; lia.
  - unfold useQuery, getQueryData. simpl.
    rewrite Hlookup, lists_not_match_detail.
    by destruct (cache !! taskQueryKeys_detail id).
Qed.

Lemma resync_refreshes_observed_lists_and_flags_the_others_witness :
  useQuery (useTasks sampleParams) (1704100000000 + 1000)
    (syncData sampleStore defaultSyncConfig (λ _, RefetchRejected) (Resolved ())
       1704100000500 sampleStore sampleCache).1.2
  = ServeStaleAndFetch (DTaskPage (samplePage [sampleTask]))
  ∧ useQuery (useTasks sampleParams) (1704100000000 + 1000)
      (syncData sampleStore defaultSyncConfig
         (λ _, RefetchResolved (DTaskPage (samplePage [serverTask])) 1704100000400)
         (Resolved ()) 1704100000500 sampleStore sampleCache).1.2
    = ServeCached (DTaskPage (samplePage [serverTask])).
Proof.
  split.
  - apply (resync_refreshes_observed_lists_and_flags_the_others sampleStore
             sampleStore defaultSyncConfig (λ _, RefetchRejected) (Resolved ())
             1704100000500 (1704100000000 + 1000) sampleCache sampleParams 7
             (DTaskPage (samplePage [sampleTask])) eq_refl eq_refl eq_refl).
    by right.
  - exact (proj1 (proj2 (resync_refreshes_observed_lists_and_flags_the_others
             sampleStore sampleStore defaultSyncConfig
             (λ _, RefetchResolved (DTaskPage (samplePage [serverTask])) 1704100000400)
             (Resolved ()) 1704100000500 (1704100000000 + 1000) sampleCache
             sampleParams 7 (DTaskPage (samplePage [sampleTask]))
             eq_refl eq_refl eq_refl))
           (DTaskPage (samplePage [serverTask])) 1704100000400 eq_refl).
Defined.

(** X26: an operation queued while offline is still queued after the
    online event has been handled by the component that rendered offline;
    the drain from the next render, in which every dispatch resolves,
    empties the queue. *)
Theorem offline_operation_is_drained_by_the_render_after_reconnect
    (process : OfflineOperation.t → bool) (state : OfflineState)
    (type : OperationType) (data : string) (env : IdSource) :
  isOnline state = false →
  (∀ op, process op = true) →
  let queued := (queueOperation state type data env state).2 in
  let reconnected := (handleOnline process queued queued).2 in
  (queueOperation state type data env state).1 = true
  ∧ isOnline reconnected = true
  ∧ length (pendingOperations reconnected)
    = S (length (pendingOperations state))
  ∧ pendingOperations (drain process reconnected) = [].
Proof.
  intros Hoff Hall queued reconnected.
  assert (Hq : queued = addPendingOperation type data env state).
  { subst queued. unfold queueOperation. by rewrite Hoff. }
  assert (Hr : reconnected = setOnlineStatus true queued).
  { subst reconnected. unfold handleOnline, processPendingOperations.
    rewrite Hq. simpl. by rewrite Hoff. }
  split_and!.
  - unfold queueOperation. by rewrite Hoff.
  - by rewrite Hr.
  - rewrite Hr, Hq. simpl. rewrite length_app. simpl. lia.
  - apply drain_all_resolved; [by rewrite Hr|]. intros op _. apply Hall.
Qed.

Lemma offline_operation_is_drained_by_the_render_after_reconnect_witness :
  pendingOperations
    (drain alwaysResolves
       (handleOnline alwaysResolves
          (queueOperation offlineStore COMPLETE_TASK "{id:7}" sampleIdSource
             offlineStore).2
          (queueOperation offlineStore COMPLETE_TASK "{id:7}" sampleIdSource
             offlineStore).2).2)
  = [].
Proof.
  apply (offline_operation_is_drained_by_the_render_after_reconnect alwaysResolves
           offlineStore COMPLETE_TASK "{id:7}" sampleIdSource); reflexivity.
Defined.

(** X27: after a drain run while online from a render of the current store,
    on a queue with distinct ids, no queued operation has a retry counter
    above 3, whatever the counters were before. *)
Theorem drained_queue_has_retry_counters_at_most_three
    (process : OfflineOperation.t → bool) (state : OfflineState)
    (op : OfflineOperation.t) :
  isOnline state = true →
  NoDup (queuedIds state) →
  op ∈ pendingOperations (drain process state) →
  OfflineOperation.retryCount op ≤ 3.
Proof.
  intros Hon Hnd. rewrite drain_spec, omap_afterDrain by done.
  intros (op0 & -> & [[_ Hlt] _]%list_elem_of_filter)%list_elem_of_fmap.
  simpl. lia.
Qed.

Lemma drained_queue_has_retry_counters_at_most_three_witness :
  OfflineOperation.retryCount (bumpRetry sampleOperation) ≤ 3.
Proof.
  apply (drained_queue_has_retry_counters_at_most_three alwaysRejects sampleStore
           (bumpRetry sampleOperation)).
  - reflexivity.
  - apply NoDup_singleton.
  - vm_compute. left.
Defined.
